(** * sound-to-element: the daily mood pipeline of [fetch-daily-mood.ts]

    A shallow embedding of [SpotifyMoodAnalyzer] and [main].

    - A JavaScript [number] is an IEEE 754 binary64 value: it is modelled by
      Rocq's primitive [float], so every comparison and every sum below
      rounds exactly as the program does.  Array lengths are [nat].
    - A JavaScript [Map] keeps its keys in insertion order and [set] on a key
      already present replaces the value in place: it is modelled by an
      association list with exactly this [set].
    - Network requests are answered by the world: a response, or a transport
      error.  Code that can throw lives in the error monad [Result]. *)

From Stdlib Require Import PrimFloat Uint63 ZArith List String Bool Lia.
From Stdlib Require FloatOps QArith.
Import ListNotations.

#[local] Set Warnings "-inexact-float".
#[local] Open Scope string_scope.
#[local] Open Scope list_scope.

(** ** JavaScript numbers *)

Definition number : Type := float.
Bind Scope float_scope with number.

Module Num.

(** [a > b], [a < b], [a >= b], [a <= b] on numbers. *)
Definition gt (a b : number) : bool := PrimFloat.ltb b a.
Definition lt (a b : number) : bool := PrimFloat.ltb a b.
Definition ge (a b : number) : bool := PrimFloat.leb b a.
Definition le (a b : number) : bool := PrimFloat.leb a b.

(** The number denoting an array length (lengths are below 2^32). *)
Definition of_length (n : nat) : number :=
  PrimFloat.of_uint63 (Uint63.of_Z (Z.of_nat n)).

End Num.

(** ** Exceptions *)

Inductive Exn : Type :=
| Error (message : string)
| TypeError
| TransportError
| SyntaxError.

Definition Result (A : Type) : Type := (Exn + A)%type.

Definition ret {A} (a : A) : Result A := inr a.
Definition throw {A} (e : Exn) : Result A := inl e.

Definition bind {A B} (c : Result A) (k : A -> Result B) : Result B :=
  match c with
  | inl e => inl e
  | inr a => k a
  end.

(** [try { c } catch (error) { h error }] *)
Definition try_catch {A} (c : Result A) (h : Exn -> Result A) : Result A :=
  match c with
  | inl e => h e
  | inr a => inr a
  end.

Declare Scope result_scope.
Delimit Scope result_scope with result.
Notation "x <- c ;; k" := (bind c (fun x => k))
  (at level 61, c at next level, right associativity) : result_scope.

(** ** The JavaScript [Map] with string keys *)

Module JsMap.
Section WithValue.
Context {V : Type}.

Definition t : Type := list (string * V).

Definition empty : t := [].

Fixpoint get (m : t) (k : string) : option V :=
  match m with
  | [] => None
  | (k', v) :: rest => if String.eqb k' k then Some v else get rest k
  end.

Fixpoint set (m : t) (k : string) (v : V) : t :=
  match m with
  | [] => [(k, v)]
  | (k', v') :: rest =>
      if String.eqb k' k then (k', v) :: rest else (k', v') :: set rest k v
  end.

Definition size (m : t) : nat := List.length m.

Definition keys (m : t) : list string := map fst m.

Definition values (m : t) : list V := map snd m.

(** The [entries] are [set] into [m] one after the other. *)
Definition build (m : t) (entries : list (string * V)) : t :=
  fold_left (fun m e => set m (fst e) (snd e)) entries m.

(** [new Map(entries)] *)
Definition of_entries (entries : list (string * V)) : t :=
  build empty entries.

End WithValue.
Arguments t : clear implicits.
End JsMap.

(** ** Data model *)

Record SpotifyTrack : Type := mkTrack {
  track_id : string;
  track_name : string;
  artists : list string;
  playedAt : string
}.

Record AudioFeatures : Type := mkFeatures {
  features_id : string;
  valence : number;
  energy : number;
  acousticness : number;
  danceability : number;
  tempo : number
}.

Record MoodData : Type := mkMood {
  avgValence : number;
  avgEnergy : number;
  avgAcousticness : number;
  trackCount : nat;
  analyzedCount : nat
}.

Inductive ElementName : Type := FIRE | WATER | AIR | EARTH | AETHER.

Record ElementData : Type := mkElement {
  element_name : ElementName;
  gradient : string;
  description : string;
  mood : MoodData;
  date : string;
  tracks : list SpotifyTrack
}.

(** ** calculateAggregateMood *)

(** [arr.reduce((a, b) => a + b, 0) / arr.length] *)
Definition average (arr : list number) : number :=
  PrimFloat.div (fold_left PrimFloat.add arr 0%float)
                (Num.of_length (List.length arr)).

(** The body of [tracks.forEach]: the three arrays after one more track. *)
Definition collect (audioFeatures : JsMap.t AudioFeatures)
    (acc : list number * list number * list number) (track : SpotifyTrack)
  : list number * list number * list number :=
  let '(valences, energies, acousticnesses) := acc in
  match JsMap.get audioFeatures (track_id track) with
  | Some features =>
      (valences ++ [valence features],
       energies ++ [energy features],
       acousticnesses ++ [acousticness features])
  | None => acc
  end.

Definition calculateAggregateMood (tracks : list SpotifyTrack)
    (audioFeatures : JsMap.t AudioFeatures) : option MoodData :=
  if (List.length tracks =? 0)%nat || (JsMap.size audioFeatures =? 0)%nat then None
  else
    let '(valences, energies, acousticnesses) :=
      fold_left (collect audioFeatures) tracks ([], [], []) in
    if (List.length valences =? 0)%nat then None
    else Some {| avgValence := average valences;
                 avgEnergy := average energies;
                 avgAcousticness := average acousticnesses;
                 trackCount := List.length tracks;
                 analyzedCount := List.length valences |}.

(** ** mapToElement

    [now] is the value of [new Date().toISOString()]. *)

Definition mapToElement (mood : MoodData) (tracks : list SpotifyTrack)
    (now : string) : ElementData :=
  let avgValence := avgValence mood in
  let avgEnergy := avgEnergy mood in
  let avgAcousticness := avgAcousticness mood in
  if Num.gt avgEnergy 0.7 && Num.gt avgValence 0.6 then
    {| element_name := FIRE;
       gradient := "linear-gradient(135deg, #ff6b00 0%, #ff0000 50%, #ffaa00 100%)";
       description := "Euphoric & Intense";
       mood := mood; date := now; tracks := tracks |}
  else if Num.lt avgEnergy 0.5 && Num.lt avgValence 0.6 then
    {| element_name := WATER;
       gradient := "linear-gradient(135deg, #000814 0%, #003566 50%, #001d3d 100%)";
       description := "Flowing & Emotional";
       mood := mood; date := now; tracks := tracks |}
  else if Num.gt avgValence 0.6 && Num.ge avgEnergy 0.4 && Num.le avgEnergy 0.7 then
    {| element_name := AIR;
       gradient := "linear-gradient(135deg, #e0f7ff 0%, #87ceeb 50%, #b8d4e6 100%)";
       description := "Light & Uplifting";
       mood := mood; date := now; tracks := tracks |}
  else if Num.gt avgAcousticness 0.5 && Num.lt avgEnergy 0.5 then
    {| element_name := AETHER;
       gradient := "linear-gradient(135deg, #0a0014 0%, #1a0033 50%, #2d1b47 100%)";
       description := "Ethereal & Transcendent";
       mood := mood; date := now; tracks := tracks |}
  else
    {| element_name := EARTH;
       gradient := "linear-gradient(135deg, #0d1b0d 0%, #1a3319 50%, #0f2511 100%)";
       description := "Grounded & Melancholic";
       mood := mood; date := now; tracks := tracks |}.

(** ** Network responses *)

Record Response (A : Type) : Type := mkResponse {
  ok : bool;
  status : Z;
  statusText : string;
  text : Result string;
  json : Result A
}.
Arguments mkResponse {A}.
Arguments ok {A}.
Arguments status {A}.
Arguments statusText {A}.
Arguments text {A}.
Arguments json {A}.

(** What [await fetch(...)] gives: a response, or a thrown transport error. *)
Definition Fetched (A : Type) : Type := Result (Response A).

(** ** getAccessToken *)

(** The token document; [access_token] is [None] when the property is
    missing ([undefined]).  A body that cannot be read as such a document
    makes [response.json()], or the property access after it, throw. *)
Record TokenData : Type := mkTokenData { access_token : option string }.

(** Truthiness of [this.accessToken : string | null]. *)
Definition truthy (s : option string) : bool :=
  match s with
  | Some s => negb (String.eqb s "")
  | None => false
  end.

(** Returns the new value of [this.accessToken]; the [catch] block logs and
    throws the error again. *)
Definition getAccessToken (fetched : Fetched TokenData) : Result (option string) :=
  try_catch
    (response <- fetched ;;
     if negb (ok response) then
       throw (Error ("Failed to get access token: " ++ statusText response))
     else
       data <- json response ;;
       ret (access_token data))%result
    (fun error => throw error).

(** ** getRecentlyPlayed *)

Record ArtistObject : Type := mkArtist { artist_name : string }.

Record TrackObject : Type := mkTrackObject {
  item_track_id : string;
  item_track_name : string;
  item_track_artists : list ArtistObject
}.

Record PlayHistoryObject : Type := mkItem {
  item_track : TrackObject;
  played_at : string
}.

(** The recently-played document: [data.items] is an array, or it is not and
    [data.items.map] throws. *)
Inductive RecentlyPlayedData : Type :=
| NoItems
| Items (items : list PlayHistoryObject).

Definition items_map {B} (data : RecentlyPlayedData)
    (f : PlayHistoryObject -> B) : Result (list B) :=
  match data with
  | NoItems => throw TypeError
  | Items items => ret (map f items)
  end.

Definition getRecentlyPlayed (accessToken : option string)
    (fetched : Fetched RecentlyPlayedData) : Result (list SpotifyTrack) :=
  if negb (truthy accessToken) then throw (Error "Access token not set")
  else
    try_catch
      (response <- fetched ;;
       if negb (ok response) then
         throw (Error ("Failed to fetch recently played: " ++ statusText response))
       else
         data <- json response ;;
         tracks <- items_map data (fun item =>
           {| track_id := item_track_id (item_track item);
              track_name := item_track_name (item_track item);
              artists := map artist_name (item_track_artists (item_track item));
              playedAt := played_at item |}) ;;
         ret tracks)%result
      (fun error => ret []).

(** ** getSoundStatAudioFeatures *)

Record FeaturesObject : Type := mkFeaturesObject {
  data_valence : number;
  data_energy : number;
  data_acousticness : number;
  data_danceability : number;
  data_tempo : number
}.

(** The analysis document: [null] (reading [data.features] throws), or an
    object with its keys and, when [data.features] is truthy, the features. *)
Inductive SoundStatData : Type :=
| DataNull
| DataObject (keys : list string) (features : option FeaturesObject).

Definition data_features (data : SoundStatData) : Result (option FeaturesObject) :=
  match data with
  | DataNull => throw TypeError
  | DataObject _ features => ret features
  end.

Definition SOUNDSTAT_BASE_URL : string := "https://soundstat.info/api/v1".

Definition track_url (track : SpotifyTrack) : string :=
  SOUNDSTAT_BASE_URL ++ "/track/" ++ track_id track.

(** [Array.from(new Map(tracks.map((track) => [track.id, track])).values())] *)
Definition uniqueTracks (tracks : list SpotifyTrack) : list SpotifyTrack :=
  JsMap.values (JsMap.of_entries (map (fun track => (track_id track, track)) tracks)).

(** The state of the enrichment loop: the map under construction and the
    URLs requested so far, in order. *)
Record Enrichment : Type := mkEnrichment {
  featuresMap : JsMap.t AudioFeatures;
  requests : list string
}.

(** [for (...) { body }] over an array, in the error monad. *)
Fixpoint for_each {S A} (body : S -> A -> Result S) (arr : list A) (s : S)
  : Result S :=
  match arr with
  | [] => ret s
  | a :: rest => (s' <- body s a ;; for_each body rest s')%result
  end.

Section Enricher.

Variable fetch : string -> Fetched SoundStatData.

(** The [try] block of one iteration, the request already sent. *)
Definition analyze_try (s : Enrichment) (track : SpotifyTrack) : Result Enrichment :=
  (response <- fetch (track_url track) ;;
   if negb (ok response) then
     errorText <- text response ;;
     ret s
   else
     data <- json response ;;
     features <- data_features data ;;
     match features with
     | Some features =>
         ret {| featuresMap :=
                  JsMap.set (featuresMap s) (track_id track)
                    {| features_id := track_id track;
                       valence := data_valence features;
                       energy := data_energy features;
                       acousticness := data_acousticness features;
                       danceability := data_danceability features;
                       tempo := data_tempo features |};
                requests := requests s |}
     | None => ret s
     end)%result.

(** One iteration: [try { ... } catch (error) { console.warn(...) }]. *)
Definition analyze_track (s : Enrichment) (track : SpotifyTrack) : Result Enrichment :=
  let sent := {| featuresMap := featuresMap s;
                 requests := requests s ++ [track_url track] |} in
  try_catch (analyze_try sent track) (fun error => ret sent).

Definition enrich (tracks : list SpotifyTrack) : Result Enrichment :=
  for_each analyze_track (uniqueTracks tracks)
    {| featuresMap := JsMap.empty; requests := [] |}.

Definition getSoundStatAudioFeatures (tracks : list SpotifyTrack)
  : Result (JsMap.t AudioFeatures) :=
  (s <- enrich tracks ;; ret (featuresMap s))%result.

End Enricher.

(** ** analyzeDailyMood and main *)

Record World : Type := mkWorld {
  SPOTIFY_CLIENT_ID : option string;
  SPOTIFY_CLIENT_SECRET : option string;
  SPOTIFY_REFRESH_TOKEN : option string;
  token_endpoint : Fetched TokenData;
  recently_played_endpoint : Fetched RecentlyPlayedData;
  soundstat_endpoint : string -> Fetched SoundStatData;
  clock : string;
  writeFile : Result unit
}.

Definition analyzeDailyMood (w : World) : Result (option ElementData) :=
  (accessToken <- getAccessToken (token_endpoint w) ;;
   tracks <- getRecentlyPlayed accessToken (recently_played_endpoint w) ;;
   if (List.length tracks =? 0)%nat then ret None
   else
     audioFeatures <- getSoundStatAudioFeatures (soundstat_endpoint w) tracks ;;
     match calculateAggregateMood tracks audioFeatures with
     | None => ret None
     | Some mood => ret (Some (mapToElement mood tracks (clock w)))
     end)%result.

(** [s.includes(sub)] *)
Fixpoint includes (s sub : string) : bool :=
  if String.prefix sub s then true
  else match s with
       | EmptyString => false
       | String _ rest => includes rest sub
       end.

(** What a run leaves behind: the exit status, the files written (name and
    the [ElementData] serialised into it) and the error handed to
    [main().catch(console.error)], if any.  An environment variable that is
    not set is [None]; [process.exit(1)] ends the run with status 1. *)
Record Outcome : Type := mkOutcome {
  exitStatus : Z;
  files : list (string * ElementData);
  reported : option Exn
}.

(** The condition of the credential check of [main]. *)
Definition invalid_credentials (w : World) : bool :=
  match SPOTIFY_CLIENT_ID w, SPOTIFY_CLIENT_SECRET w, SPOTIFY_REFRESH_TOKEN w with
  | Some clientId, Some clientSecret, Some refreshToken =>
      String.eqb clientId "" || String.eqb clientSecret ""
      || String.eqb refreshToken ""
      || includes clientId "YOUR_" || includes clientSecret "YOUR_"
      || includes refreshToken "YOUR_"
  | _, _, _ => true
  end.

Definition main (w : World) : Outcome :=
  if invalid_credentials w then
    {| exitStatus := 1; files := []; reported := None |}
  else
    match (elementData <- analyzeDailyMood w ;;
           match elementData with
           | Some elementData =>
               _ <- writeFile w ;;
               ret [("current_mood.json", elementData)]
           | None => ret []
           end)%result with
    | inr written => {| exitStatus := 0; files := written; reported := None |}
    | inl error => {| exitStatus := 0; files := []; reported := Some error |}
    end.

(** ** The classifier as the specification words it: an ordered rule list *)

Module Rules.

Definition fire (m : MoodData) : bool :=
  Num.gt (avgEnergy m) 0.7 && Num.gt (avgValence m) 0.6.

Definition water (m : MoodData) : bool :=
  Num.lt (avgEnergy m) 0.5 && Num.lt (avgValence m) 0.6.

Definition air (m : MoodData) : bool :=
  Num.gt (avgValence m) 0.6
  && (Num.le 0.4 (avgEnergy m) && Num.le (avgEnergy m) 0.7).

Definition aether (m : MoodData) : bool :=
  Num.gt (avgAcousticness m) 0.5 && Num.lt (avgEnergy m) 0.5.

Definition ordered : list ((MoodData -> bool) * ElementName) :=
  [(fire, FIRE); (water, WATER); (air, AIR); (aether, AETHER)].

(** First match wins; [default] when no rule matches. *)
Fixpoint first_match (rules : list ((MoodData -> bool) * ElementName))
    (default : ElementName) (m : MoodData) : ElementName :=
  match rules with
  | [] => default
  | (holds, label) :: rest =>
      if holds m then label else first_match rest default m
  end.

Definition classify : MoodData -> ElementName := first_match ordered EARTH.

End Rules.

Definition summary (v e a : number) : MoodData :=
  {| avgValence := v; avgEnergy := e; avgAcousticness := a;
     trackCount := 1; analyzedCount := 1 |}.

(** ** Reading the aggregator: what it collects *)

(** The features found for the tracks, one per occurrence, in input order. *)
Definition lookups (audioFeatures : JsMap.t AudioFeatures) (tracks : list SpotifyTrack) : list AudioFeatures :=
  flat_map (fun track =>
              match JsMap.get audioFeatures (track_id track) with
              | Some features => [features]
              | None => []
              end) tracks.

(** The tracks whose identifier has an entry in the mapping. *)
Definition matching (audioFeatures : JsMap.t AudioFeatures) (tracks : list SpotifyTrack) : list SpotifyTrack :=
  filter (fun track =>
            match JsMap.get audioFeatures (track_id track) with
            | Some _ => true
            | None => false
            end) tracks.

Definition summarize (n : nat) (found : list AudioFeatures) : option MoodData :=
  match found with
  | [] => None
  | _ :: _ =>
      Some {| avgValence := average (map valence found);
              avgEnergy := average (map energy found);
              avgAcousticness := average (map acousticness found);
              trackCount := n;
              analyzedCount := List.length found |}
  end.

(** The metrics the aggregator reads from a features entry. *)
Definition read_metrics (features : AudioFeatures) : number * number * number :=
  (valence features, energy features, acousticness features).

(** Two mappings agree on valence, energy and acousticness for every track
    identifier (and so have entries for the same identifiers). *)
Definition agree_on_metrics (m1 m2 : JsMap.t AudioFeatures) : Prop :=
  forall k, option_map read_metrics (JsMap.get m1 k) =
            option_map read_metrics (JsMap.get m2 k).

(** The three means of a result. *)
Definition means (m : option MoodData) : option (number * number * number) :=
  option_map (fun m => (avgValence m, avgEnergy m, avgAcousticness m)) m.

(** The display strings fixed by each label. *)
Definition gradient_of (label : ElementName) : string :=
  match label with
  | FIRE => "linear-gradient(135deg, #ff6b00 0%, #ff0000 50%, #ffaa00 100%)"
  | WATER => "linear-gradient(135deg, #000814 0%, #003566 50%, #001d3d 100%)"
  | AIR => "linear-gradient(135deg, #e0f7ff 0%, #87ceeb 50%, #b8d4e6 100%)"
  | AETHER => "linear-gradient(135deg, #0a0014 0%, #1a0033 50%, #2d1b47 100%)"
  | EARTH => "linear-gradient(135deg, #0d1b0d 0%, #1a3319 50%, #0f2511 100%)"
  end.

Definition description_of (label : ElementName) : string :=
  match label with
  | FIRE => "Euphoric & Intense"
  | WATER => "Flowing & Emotional"
  | AIR => "Light & Uplifting"
  | AETHER => "Ethereal & Transcendent"
  | EARTH => "Grounded & Melancholic"
  end.

(** ** Reading the enricher: deduplication and requests *)

Definition mem (k : string) (l : list string) : bool :=
  existsb (String.eqb k) l.

(** The identifiers of a sequence in order of first occurrence, those
    already [seen] left out. *)
Fixpoint first_occurrences (seen l : list string) : list string :=
  match l with
  | [] => []
  | k :: rest =>
      if mem k seen then first_occurrences seen rest
      else k :: first_occurrences (seen ++ [k]) rest
  end.

(** The first and the last track of a sequence bearing identifier [k]. *)
Definition first_with_id (tracks : list SpotifyTrack) (k : string)
  : option SpotifyTrack :=
  find (fun track => String.eqb (track_id track) k) tracks.

Definition last_with_id (tracks : list SpotifyTrack) (k : string)
  : option SpotifyTrack :=
  find (fun track => String.eqb (track_id track) k) (rev tracks).

(** The URL requested for identifier [k]. *)
Definition url_of (k : string) : string :=
  SOUNDSTAT_BASE_URL ++ "/track/" ++ k.

(** The request for identifier [k] fails: transport error, non-success
    status, a body that is no JSON document or is [null], or a document
    without a features object. *)
Definition request_fails (fetch : string -> Fetched SoundStatData) (k : string)
  : bool :=
  match fetch (url_of k) with
  | inl _ => true
  | inr response =>
      if ok response then
        match json response with
        | inr (DataObject _ (Some _)) => false
        | _ => true
        end
      else true
  end.

(** The entry stored for identifier [k] when its request succeeds. *)
Definition analysis (fetch : string -> Fetched SoundStatData) (k : string)
  : option AudioFeatures :=
  match fetch (url_of k) with
  | inl _ => None
  | inr response =>
      if ok response then
        match json response with
        | inr (DataObject _ (Some features)) =>
            Some {| features_id := k;
                    valence := data_valence features;
                    energy := data_energy features;
                    acousticness := data_acousticness features;
                    danceability := data_danceability features;
                    tempo := data_tempo features |}
        | _ => None
        end
      else None
  end.

(** What one iteration of the enrichment loop does to the map. *)
Definition store (fetch : string -> Fetched SoundStatData)
    (m : JsMap.t AudioFeatures) (track : SpotifyTrack) : JsMap.t AudioFeatures :=
  match analysis fetch (track_id track) with
  | Some features => JsMap.set m (track_id track) features
  | None => m
  end.

(** ** Reading the pipeline *)

(** [sub] occurs somewhere in [s]. *)
Definition occurs_in (sub s : string) : Prop :=
  exists pre post, s = (pre ++ sub ++ post)%string.

(** A credential the check of [main] refuses: not set, empty, or holding
    the placeholder marker. *)
Definition refused (v : option string) : Prop :=
  match v with
  | None => True
  | Some s => s = "" \/ occurs_in "YOUR_" s
  end.

(** The track built from one item of the recently-played document. *)
Definition track_of_item (item : PlayHistoryObject) : SpotifyTrack :=
  {| track_id := item_track_id (item_track item);
     track_name := item_track_name (item_track item);
     artists := map artist_name (item_track_artists (item_track item));
     playedAt := played_at item |}.

(** The tracks a recently-played answer stands for: those of its items when
    the status is a success and the body holds an items array, none
    otherwise. *)
Definition played (fetched : Fetched RecentlyPlayedData) : list SpotifyTrack :=
  match fetched with
  | inl _ => []
  | inr response =>
      if ok response then
        match json response with
        | inr (Items items) => map track_of_item items
        | _ => []
        end
      else []
  end.

(** The mapping the enrichment loop ends with. *)
Definition enriched (fetch : string -> Fetched SoundStatData)
    (tracks : list SpotifyTrack) : JsMap.t AudioFeatures :=
  fold_left (store fetch) (uniqueTracks tracks) JsMap.empty.

(** The plays whose analysis request succeeds. *)
Definition analysed_plays (fetch : string -> Fetched SoundStatData)
    (tracks : list SpotifyTrack) : list SpotifyTrack :=
  filter (fun track => negb (request_fails fetch (track_id track))) tracks.

(** The world [w] with another analysis service. *)
Definition with_soundstat (w : World) (fetch : string -> Fetched SoundStatData)
  : World :=
  {| SPOTIFY_CLIENT_ID := SPOTIFY_CLIENT_ID w;
     SPOTIFY_CLIENT_SECRET := SPOTIFY_CLIENT_SECRET w;
     SPOTIFY_REFRESH_TOKEN := SPOTIFY_REFRESH_TOKEN w;
     token_endpoint := token_endpoint w;
     recently_played_endpoint := recently_played_endpoint w;
     soundstat_endpoint := fetch;
     clock := clock w;
     writeFile := writeFile w |}.

(** ** Sample data *)

Module Sample.

Definition morning : SpotifyTrack :=
  {| track_id := "a"; track_name := "Aubade"; artists := ["Ana"];
     playedAt := "2024-05-01T08:00:00.000Z" |}.

Definition evening : SpotifyTrack :=
  {| track_id := "a"; track_name := "Aubade"; artists := ["Ana"];
     playedAt := "2024-05-01T20:00:00.000Z" |}.

Definition other : SpotifyTrack :=
  {| track_id := "b"; track_name := "Berceuse"; artists := ["Ben"; "Bea"];
     playedAt := "2024-05-01T12:00:00.000Z" |}.

Definition unknown : SpotifyTrack :=
  {| track_id := "c"; track_name := "Coda"; artists := [];
     playedAt := "2024-05-01T13:00:00.000Z" |}.

Definition features_of (k : string) (v e a d t : number) : AudioFeatures :=
  {| features_id := k; valence := v; energy := e; acousticness := a;
     danceability := d; tempo := t |}.

Definition analysed : JsMap.t AudioFeatures :=
  JsMap.set (JsMap.set JsMap.empty "a" (features_of "a" 1 1 1 0.5 120))
            "b" (features_of "b" 0 0 0 0.5 90).

(** The summary of [morning], [other] and [unknown] under [analysed]. *)
Definition two_of_three : MoodData :=
  {| avgValence := 0.5; avgEnergy := 0.5; avgAcousticness := 0.5;
     trackCount := 3; analyzedCount := 2 |}.

(** The same metrics, other danceability and tempo. *)
Definition analysed' : JsMap.t AudioFeatures :=
  JsMap.set (JsMap.set JsMap.empty "a" (features_of "a" 1 1 1 0.1 60))
            "b" (features_of "b" 0 0 0 0.9 200).

Definition answer {A} (code : Z) (reason : string) (body : Result A) : Fetched A :=
  inr {| ok := (200 <=? code)%Z && (code <=? 299)%Z; status := code;
         statusText := reason; text := inr ""; json := body |}.

(** The analysis service knows [a], answers 404 for [b] and cannot be
    reached for anything else. *)
Definition soundstat (url : string) : Fetched SoundStatData :=
  if String.eqb url (url_of "a") then
    answer 200 "OK"
      (inr (DataObject ["id"; "features"]
              (Some {| data_valence := 0.9; data_energy := 0.8;
                       data_acousticness := 0.2; data_danceability := 0.7;
                       data_tempo := 128 |})))
  else if String.eqb url (url_of "b") then
    answer 404 "Not Found" (inl SyntaxError)
  else inl TransportError.

(** A run in which the recently-played endpoint answers 500. *)
Definition history_down : World :=
  {| SPOTIFY_CLIENT_ID := Some "client";
     SPOTIFY_CLIENT_SECRET := Some "secret";
     SPOTIFY_REFRESH_TOKEN := Some "refresh";
     token_endpoint := answer 200 "OK" (inr {| access_token := Some "token" |});
     recently_played_endpoint := answer 500 "Internal Server Error" (inl SyntaxError);
     soundstat_endpoint := soundstat;
     clock := "2024-05-02T00:00:00.000Z";
     writeFile := inr tt |}.

End Sample.

(** ** Sample runs *)

Module Runs.

Definition item (k title artist time : string) : PlayHistoryObject :=
  {| item_track := {| item_track_id := k; item_track_name := title;
                      item_track_artists := [{| artist_name := artist |}] |};
     played_at := time |}.

(** [a] in the morning, [b] at noon, [a] again in the evening. *)
Definition three_plays : list PlayHistoryObject :=
  [item "a" "Aubade" "Ana" "2024-05-01T08:00:00.000Z";
   item "b" "Berceuse" "Ben" "2024-05-01T12:00:00.000Z";
   item "a" "Aubade" "Ana" "2024-05-01T20:00:00.000Z"].

Definition world (client : option string) (token : Fetched TokenData)
    (history : Fetched RecentlyPlayedData)
    (service : string -> Fetched SoundStatData) : World :=
  {| SPOTIFY_CLIENT_ID := client;
     SPOTIFY_CLIENT_SECRET := Some "secret";
     SPOTIFY_REFRESH_TOKEN := Some "refresh";
     token_endpoint := token;
     recently_played_endpoint := history;
     soundstat_endpoint := service;
     clock := "2024-05-02T00:00:00.000Z";
     writeFile := inr tt |}.

Definition token_granted : Fetched TokenData :=
  Sample.answer 200 "OK" (inr {| access_token := Some "token" |}).

Definition good_day : World :=
  world (Some "client") token_granted
        (Sample.answer 200 "OK" (inr (Items three_plays))) Sample.soundstat.

Definition placeholder : World :=
  world (Some "PUT_YOUR_CLIENT_ID_HERE") token_granted
        (Sample.answer 200 "OK" (inr (Items three_plays))) Sample.soundstat.

Definition token_refused : World :=
  world (Some "client") (Sample.answer 400 "Bad Request" (inl SyntaxError))
        (Sample.answer 200 "OK" (inr (Items three_plays))) Sample.soundstat.

Definition token_blank : World :=
  world (Some "client") (Sample.answer 200 "OK" (inr {| access_token := None |}))
        (Sample.answer 200 "OK" (inr (Items three_plays))) Sample.soundstat.

Definition quiet_day : World :=
  world (Some "client") token_granted
        (Sample.answer 200 "OK" (inr (Items []))) Sample.soundstat.

(** No request to the analysis service is answered. *)
Definition unreachable (url : string) : Fetched SoundStatData :=
  inl TransportError.

Definition service_down : World :=
  world (Some "client") token_granted
        (Sample.answer 200 "OK" (inr (Items three_plays))) unreachable.

(** [Sample.soundstat] with another danceability and tempo for [a]. *)
Definition soundstat' (url : string) : Fetched SoundStatData :=
  if String.eqb url (url_of "a") then
    Sample.answer 200 "OK"
      (inr (DataObject ["features"]
              (Some {| data_valence := 0.9; data_energy := 0.8;
                       data_acousticness := 0.2; data_danceability := 0.1;
                       data_tempo := 70 |})))
  else inl TransportError.

End Runs.

(** ** Exact values and the exact mean *)

Module Exact.

(** The rational a finite number denotes; [None] for NaN and the
    infinities. *)
Definition value (x : number) : option QArith_base.Q :=
  match FloatOps.Prim2SF x with
  | SpecFloat.S754_zero _ => Some (QArith_base.Qmake 0 1)
  | SpecFloat.S754_finite s m e =>
      Some (QArith_base.Qmult
              (QArith_base.inject_Z (if s then Z.neg m else Z.pos m))
              (QArith_base.Qpower (QArith_base.Qmake 2 1) e))
  | _ => None
  end.

Fixpoint values (l : list number) : option (list QArith_base.Q) :=
  match l with
  | [] => Some []
  | x :: rest =>
      match value x, values rest with
      | Some q, Some qs => Some (q :: qs)
      | _, _ => None
      end
  end.

(** The arithmetic mean: the sum of the values divided by their number. *)
Definition arithmetic_mean (qs : list QArith_base.Q) : QArith_base.Q :=
  QArith_base.Qdiv
    (fold_right QArith_base.Qplus (QArith_base.Qmake 0 1) qs)
    (QArith_base.inject_Z (Z.of_nat (List.length qs))).

(** The number [avg] is the arithmetic mean of the numbers [l]. *)
Definition is_mean (avg : number) (l : list number) : bool :=
  match value avg, values l with
  | Some q, Some qs => QArith_base.Qeq_bool q (arithmetic_mean qs)
  | _, _ => false
  end.

End Exact.

(** Six tracks, each analysed with valence, energy and acousticness 0.7. *)
Module Rounding.

Definition ids : list string := ["1"; "2"; "3"; "4"; "5"; "6"].

Definition play (k : string) : SpotifyTrack :=
  {| track_id := k; track_name := "Etude"; artists := ["Eve"];
     playedAt := "2024-05-01T09:00:00.000Z" |}.

Definition features (k : string) : AudioFeatures :=
  {| features_id := k; valence := 0.7; energy := 0.7; acousticness := 0.7;
     danceability := 0.5; tempo := 100 |}.

Definition plays : list SpotifyTrack := map play ids.

Definition analysed : JsMap.t AudioFeatures :=
  JsMap.of_entries (map (fun k => (k, features k)) ids).

End Rounding.

(** * Theorems *)

(** The nested conditionals of [mapToElement] are the ordered rule list. *)
Lemma mapToElement_classify (m : MoodData) (ts : list SpotifyTrack) (now : string) :
  element_name (mapToElement m ts now) = Rules.classify m.
Proof.
  unfold mapToElement, Rules.classify, Rules.ordered, Rules.first_match,
    Rules.fire, Rules.water, Rules.air, Rules.aether, Num.ge, Num.le.
  rewrite <- andb_assoc.
  repeat match goal with |- context [if ?b then _ else _] => destruct b end;
    reflexivity.
Qed.

(** C1 (as stated, refuted): the summary avgValence = 0.65, avgEnergy = 0.75,
    avgAcousticness = 0.1 is not classified EARTH; the FIRE rule matches it. *)
Lemma C1_counterexample :
  element_name (mapToElement (summary 0.65 0.75 0.1) [] "") = FIRE /\
  element_name (mapToElement (summary 0.65 0.75 0.1) [] "") <> EARTH.
Proof. split; [reflexivity | discriminate]. Qed.

(** C1 (amended): for every summary [mapToElement] returns the label of the
    first matching rule of FIRE, WATER, AIR, AETHER in this order, EARTH when
    none matches; avgEnergy = 0.45, avgValence = 0.65 gives AIR; avgValence =
    0.65, avgEnergy = 0.75, avgAcousticness = 0.1 gives FIRE; every summary
    with avgEnergy > 0.7 and avgValence > 0.6 gives FIRE whatever its
    acousticness. *)
Theorem C1_mapToElement_ordered_rules :
  (forall m ts now, element_name (mapToElement m ts now) = Rules.classify m) /\
  (forall a ts now, element_name (mapToElement (summary 0.65 0.45 a) ts now) = AIR) /\
  (forall ts now, element_name (mapToElement (summary 0.65 0.75 0.1) ts now) = FIRE) /\
  (forall m ts now,
      Num.gt (avgEnergy m) 0.7 = true -> Num.gt (avgValence m) 0.6 = true ->
      element_name (mapToElement m ts now) = FIRE).
Proof.
  split; [| split; [| split]].
  - apply mapToElement_classify.
  - intros a ts now. vm_compute. reflexivity.
  - intros ts now. vm_compute. reflexivity.
  - intros m ts now He Hv. unfold mapToElement; cbv zeta.
    rewrite He, Hv. reflexivity.
Qed.

Lemma C1_witness :
  element_name (mapToElement (summary 0.9 0.8 0.95) [] "2024-01-01T00:00:00.000Z") = FIRE.
Proof.
  apply (proj2 (proj2 (proj2 C1_mapToElement_ordered_rules))); reflexivity.
Defined.

(** ** The aggregator *)

Section Aggregator.

Variable audioFeatures : JsMap.t AudioFeatures.

Lemma collect_fold (tracks : list SpotifyTrack) :
  forall vs es cs,
    fold_left (collect audioFeatures) tracks (vs, es, cs) =
    (vs ++ map valence (lookups audioFeatures tracks),
     es ++ map energy (lookups audioFeatures tracks),
     cs ++ map acousticness (lookups audioFeatures tracks)).
Proof.
  induction tracks as [| track tracks IH]; intros vs es cs; simpl.
  - now rewrite !app_nil_r.
  - destruct (JsMap.get audioFeatures (track_id track)) as [features |]; simpl.
    + rewrite IH, <- !app_assoc. reflexivity.
    + apply IH.
Qed.

Lemma lookups_length_matching (tracks : list SpotifyTrack) :
  List.length (lookups audioFeatures tracks) = List.length (matching audioFeatures tracks).
Proof.
  induction tracks as [| track tracks IH]; simpl; [reflexivity |].
  destruct (JsMap.get audioFeatures (track_id track)); simpl; now rewrite IH.
Qed.

Lemma matching_length_le (tracks : list SpotifyTrack) :
  List.length (matching audioFeatures tracks) <= List.length tracks.
Proof. apply filter_length_le. Qed.

Lemma lookups_all (feat : SpotifyTrack -> AudioFeatures) (tracks : list SpotifyTrack) :
  (forall track, In track tracks ->
                 JsMap.get audioFeatures (track_id track) = Some (feat track)) ->
  lookups audioFeatures tracks = map feat tracks.
Proof.
  induction tracks as [| track tracks IH]; intros Hall; simpl; [reflexivity |].
  rewrite (Hall track (or_introl eq_refl)); simpl.
  f_equal. apply IH. intros t Ht. apply Hall. now right.
Qed.

Lemma lookups_empty_map (tracks : list SpotifyTrack) :
  audioFeatures = [] -> lookups audioFeatures tracks = [].
Proof.
  intros ->. induction tracks as [| track tracks IH]; simpl; auto.
Qed.

(** The early returns only anticipate an empty collection. *)
Lemma calculateAggregateMood_lookups (tracks : list SpotifyTrack) :
  calculateAggregateMood tracks audioFeatures =
  summarize (List.length tracks) (lookups audioFeatures tracks).
Proof.
  unfold calculateAggregateMood.
  destruct tracks as [| track tracks]; [reflexivity |].
  cbn [List.length Nat.eqb orb].
  destruct (JsMap.size audioFeatures =? 0)%nat eqn:Hsize.
  - rewrite lookups_empty_map; [reflexivity |].
    destruct audioFeatures; [reflexivity | discriminate].
  - rewrite collect_fold. cbn [app]. rewrite length_map.
    destruct (lookups audioFeatures (track :: tracks)) as [| f fs]; reflexivity.
Qed.

End Aggregator.

Lemma summarize_some (n : nat) (found : list AudioFeatures) (m : MoodData) :
  summarize n found = Some m ->
  found <> [] /\ trackCount m = n /\ analyzedCount m = List.length found.
Proof.
  destruct found as [| f fs]; simpl; [discriminate |].
  intros [= <-]. repeat split. discriminate.
Qed.

Lemma summarize_nonempty (n : nat) (found : list AudioFeatures) :
  found <> [] ->
  summarize n found =
  Some {| avgValence := average (map valence found);
          avgEnergy := average (map energy found);
          avgAcousticness := average (map acousticness found);
          trackCount := n;
          analyzedCount := List.length found |}.
Proof. destruct found; [contradiction | reflexivity]. Qed.

Lemma summarize_metrics (n : nat) (found1 found2 : list AudioFeatures) :
  map read_metrics found1 = map read_metrics found2 ->
  summarize n found1 = summarize n found2.
Proof.
  intros Hcore.
  assert (Hv : map valence found1 = map valence found2).
  { change valence with (fun f => fst (fst (read_metrics f))).
    rewrite <- !(map_map read_metrics (fun c => fst (fst c))). now rewrite Hcore. }
  assert (He : map energy found1 = map energy found2).
  { change energy with (fun f => snd (fst (read_metrics f))).
    rewrite <- !(map_map read_metrics (fun c => snd (fst c))). now rewrite Hcore. }
  assert (Ha : map acousticness found1 = map acousticness found2).
  { change acousticness with (fun f => snd (read_metrics f)).
    rewrite <- !(map_map read_metrics (fun c => snd c)). now rewrite Hcore. }
  assert (Hlen : List.length found1 = List.length found2).
  { rewrite <- (length_map read_metrics found1), Hcore. apply length_map. }
  unfold summarize.
  destruct found1, found2; try discriminate; [reflexivity |].
  now rewrite Hv, He, Ha, Hlen.
Qed.

Lemma lookups_agree (m1 m2 : JsMap.t AudioFeatures) (tracks : list SpotifyTrack) :
  agree_on_metrics m1 m2 ->
  map read_metrics (lookups m1 tracks) = map read_metrics (lookups m2 tracks).
Proof.
  intros Hagree.
  induction tracks as [| track tracks IH]; simpl; [reflexivity |].
  rewrite !map_app, IH. f_equal.
  specialize (Hagree (track_id track)).
  destruct (JsMap.get m1 (track_id track)), (JsMap.get m2 (track_id track));
    simpl in *; congruence.
Qed.

(** C2 (as stated, refuted): the means are computed in binary64 and are
    not always the arithmetic mean.  Six tracks, all with an entry, each
    of valence 0.7: analyzedCount = trackCount = 6, the arithmetic mean of
    the valences is 0.7, the avgValence returned is 0.7000000000000001,
    which is not that mean (and is above the threshold 0.7). *)
Lemma C2_counterexample :
  Rounding.plays <> [] /\
  (forall track, In track Rounding.plays ->
     JsMap.get Rounding.analysed (track_id track) =
     Some (Rounding.features (track_id track))) /\
  exists m,
    calculateAggregateMood Rounding.plays Rounding.analysed = Some m /\
    analyzedCount m = 6 /\ trackCount m = 6 /\
    Exact.is_mean 0.7
      (map (fun track => valence (Rounding.features (track_id track)))
           Rounding.plays) = true /\
    Exact.is_mean (avgValence m)
      (map (fun track => valence (Rounding.features (track_id track)))
           Rounding.plays) = false /\
    Num.gt (avgValence m) 0.7 = true.
Proof.
  split; [discriminate |]. split.
  - intros track [<- | [<- | [<- | [<- | [<- | [<- | []]]]]]]; reflexivity.
  - eexists. split; [vm_compute; reflexivity |].
    repeat split; vm_compute; reflexivity.
Qed.

(** C2 (amended): when the track sequence is not empty and every track has
    a features entry ([feat] gives it), the aggregator returns a summary
    whose analyzedCount and trackCount are the length of the sequence and
    whose three means are, each, the binary64 quotient of the binary64 sum
    of the metric over all the tracks, added from the left starting at 0
    in input order, by the number of tracks. *)
Theorem C2_all_tracks_analysed
    (tracks : list SpotifyTrack) (audioFeatures : JsMap.t AudioFeatures)
    (feat : SpotifyTrack -> AudioFeatures) :
  tracks <> [] ->
  (forall track, In track tracks ->
                 JsMap.get audioFeatures (track_id track) = Some (feat track)) ->
  calculateAggregateMood tracks audioFeatures =
  Some {| avgValence :=
            PrimFloat.div
              (fold_left PrimFloat.add
                 (map (fun track => valence (feat track)) tracks) 0%float)
              (Num.of_length (List.length tracks));
          avgEnergy :=
            PrimFloat.div
              (fold_left PrimFloat.add
                 (map (fun track => energy (feat track)) tracks) 0%float)
              (Num.of_length (List.length tracks));
          avgAcousticness :=
            PrimFloat.div
              (fold_left PrimFloat.add
                 (map (fun track => acousticness (feat track)) tracks) 0%float)
              (Num.of_length (List.length tracks));
          trackCount := List.length tracks;
          analyzedCount := List.length tracks |}.
Proof.
  intros Hne Hall.
  rewrite calculateAggregateMood_lookups, (lookups_all _ feat tracks Hall).
  rewrite summarize_nonempty.
  - unfold average. rewrite !map_map, !length_map. reflexivity.
  - destruct tracks; [contradiction | discriminate].
Qed.

Lemma C2_witness :
  calculateAggregateMood [Sample.morning; Sample.other; Sample.evening] Sample.analysed =
  Some {| avgValence := PrimFloat.div 2 3;
          avgEnergy := PrimFloat.div 2 3;
          avgAcousticness := PrimFloat.div 2 3;
          trackCount := 3; analyzedCount := 3 |}.
Proof.
  apply (C2_all_tracks_analysed
           [Sample.morning; Sample.other; Sample.evening] Sample.analysed
           (fun track => if String.eqb (track_id track) "a"
                         then Sample.features_of "a" 1 1 1 0.5 120
                         else Sample.features_of "b" 0 0 0 0.5 90)).
  - discriminate.
  - intros track [<- | [<- | [<- | []]]]; reflexivity.
Defined.

(** C5: the aggregator returns absent exactly when the track sequence is
    empty or no input track has an entry in the features mapping; it is
    absent for the empty mapping whatever the tracks. *)
Theorem C5_absent_iff (tracks : list SpotifyTrack) (audioFeatures : JsMap.t AudioFeatures) :
  (calculateAggregateMood tracks audioFeatures = None <->
   tracks = [] \/ List.length (matching audioFeatures tracks) = 0) /\
  calculateAggregateMood tracks JsMap.empty = None.
Proof.
  split.
  - rewrite calculateAggregateMood_lookups, <- lookups_length_matching.
    split.
    + intros Hnone. right.
      destruct (lookups audioFeatures tracks); [reflexivity | discriminate].
    + intros [-> | Hzero]; [reflexivity |].
      destruct (lookups audioFeatures tracks); [reflexivity | discriminate].
  - rewrite calculateAggregateMood_lookups.
    now rewrite (lookups_empty_map JsMap.empty tracks eq_refl).
Qed.

(** C8: a summary returned by the aggregator has 1 <= analyzedCount <=
    trackCount. *)
Theorem C8_analyzed_count_bounds
    (tracks : list SpotifyTrack) (audioFeatures : JsMap.t AudioFeatures)
    (m : MoodData) :
  calculateAggregateMood tracks audioFeatures = Some m ->
  1 <= analyzedCount m /\ analyzedCount m <= trackCount m.
Proof.
  rewrite calculateAggregateMood_lookups. intros Hsome.
  apply summarize_some in Hsome as (Hne & -> & ->).
  split.
  - destruct (lookups audioFeatures tracks); [contradiction | simpl; lia].
  - rewrite lookups_length_matching. apply matching_length_le.
Qed.

Lemma C8_witness :
  1 <= analyzedCount Sample.two_of_three /\
  analyzedCount Sample.two_of_three <= trackCount Sample.two_of_three.
Proof.
  apply (C8_analyzed_count_bounds
           [Sample.morning; Sample.other; Sample.unknown] Sample.analysed).
  vm_compute. reflexivity.
Defined.

(** C9: the result of the classifier carries the input summary as [mood]
    and the input track list as [tracks], unchanged; what it adds is the
    label, the gradient and description fixed by the label, and the
    timestamp. *)
Theorem C9_mapToElement_frame (m : MoodData) (ts : list SpotifyTrack) (now : string) :
  mood (mapToElement m ts now) = m /\
  tracks (mapToElement m ts now) = ts /\
  date (mapToElement m ts now) = now /\
  element_name (mapToElement m ts now) = Rules.classify m /\
  gradient (mapToElement m ts now) = gradient_of (Rules.classify m) /\
  description (mapToElement m ts now) = description_of (Rules.classify m).
Proof.
  rewrite <- (mapToElement_classify m ts now).
  unfold mapToElement; cbv zeta.
  repeat match goal with |- context [if ?b then _ else _] => destruct b end;
    repeat split.
Qed.

(** ** The JavaScript [Map] *)

Module JsMapFacts.
Section WithValue.

Context {V : Type}.
Implicit Types (m : JsMap.t V) (k : string) (v : V).

Lemma mem_In k (l : list string) : mem k l = true <-> In k l.
Proof.
  unfold mem. rewrite existsb_exists. split.
  - intros (x & Hin & Heq). apply String.eqb_eq in Heq. now subst.
  - intros Hin. exists k. split; [assumption | apply String.eqb_refl].
Qed.

Lemma mem_not_In k (l : list string) : mem k l = false <-> ~ In k l.
Proof.
  rewrite <- mem_In. destruct (mem k l); split; congruence.
Qed.

Lemma get_app m1 m2 k :
  JsMap.get (m1 ++ m2) k =
  match JsMap.get m1 k with
  | Some v => Some v
  | None => JsMap.get m2 k
  end.
Proof.
  induction m1 as [| [k1 v1] m1 IH]; simpl; [reflexivity |].
  destruct (String.eqb k1 k); [reflexivity | apply IH].
Qed.

Lemma get_set m k v k' :
  JsMap.get (JsMap.set m k v) k' =
  if String.eqb k k' then Some v else JsMap.get m k'.
Proof.
  induction m as [| [k0 v0] m IH]; simpl; [reflexivity |].
  destruct (String.eqb k0 k) eqn:Hk0; simpl.
  - apply String.eqb_eq in Hk0; subst k0.
    destruct (String.eqb k k'); reflexivity.
  - rewrite IH.
    destruct (String.eqb k0 k') eqn:Hk0', (String.eqb k k') eqn:Hkk';
      try reflexivity.
    apply String.eqb_eq in Hk0', Hkk'. subst.
    rewrite String.eqb_refl in Hk0. discriminate.
Qed.

Lemma get_none_not_key m k : JsMap.get m k = None <-> ~ In k (JsMap.keys m).
Proof.
  induction m as [| [k0 v0] m IH]; simpl; [tauto |].
  destruct (String.eqb k0 k) eqn:Hk.
  - apply String.eqb_eq in Hk. split; [discriminate | tauto].
  - apply String.eqb_neq in Hk. tauto.
Qed.

Lemma set_key_present m k v :
  In k (JsMap.keys m) -> JsMap.keys (JsMap.set m k v) = JsMap.keys m.
Proof.
  induction m as [| [k0 v0] m IH]; simpl; [contradiction |].
  destruct (String.eqb k0 k) eqn:Hk; simpl; [reflexivity |].
  apply String.eqb_neq in Hk.
  intros [Heq | Hin]; [contradiction |]. f_equal. now apply IH.
Qed.

Lemma set_key_fresh m k v :
  ~ In k (JsMap.keys m) -> JsMap.set m k v = m ++ [(k, v)].
Proof.
  induction m as [| [k0 v0] m IH]; simpl; [reflexivity |].
  intros Hnin. destruct (String.eqb k0 k) eqn:Hk.
  - apply String.eqb_eq in Hk. tauto.
  - f_equal. apply IH. tauto.
Qed.

Lemma set_Forall (P : string * V -> Prop) m k v :
  Forall P m -> P (k, v) -> Forall P (JsMap.set m k v).
Proof.
  intros Hm Hkv.
  induction Hm as [| [k0 v0] m H0 Hm IH]; simpl.
  - now constructor.
  - destruct (String.eqb k0 k) eqn:Hk.
    + apply String.eqb_eq in Hk; subst k0. now constructor.
    + now constructor.
Qed.

Lemma In_get m k v :
  NoDup (JsMap.keys m) -> In (k, v) m -> JsMap.get m k = Some v.
Proof.
  induction m as [| [k0 v0] m IH]; simpl; [contradiction |].
  intros Hnd [Heq | Hin].
  - injection Heq as -> ->. now rewrite String.eqb_refl.
  - inversion Hnd as [| ? ? Hnin Hnd']; subst.
    destruct (String.eqb k0 k) eqn:Hk; [| now apply IH].
    apply String.eqb_eq in Hk; subst k0.
    exfalso. apply Hnin. unfold JsMap.keys.
    change k with (fst (k, v)). now apply in_map.
Qed.

Lemma build_keys (entries : list (string * V)) :
  forall m, JsMap.keys (JsMap.build m entries) =
            JsMap.keys m ++ first_occurrences (JsMap.keys m) (map fst entries).
Proof.
  induction entries as [| [k v] entries IH]; intros m; simpl.
  - now rewrite app_nil_r.
  - unfold JsMap.build in *. rewrite IH.
    destruct (mem k (JsMap.keys m)) eqn:Hmem.
    + apply mem_In in Hmem. now rewrite set_key_present.
    + apply mem_not_In in Hmem. rewrite set_key_fresh by assumption.
      unfold JsMap.keys. rewrite map_app, <- app_assoc. reflexivity.
Qed.

Lemma build_get (entries : list (string * V)) :
  forall m k,
    JsMap.get (JsMap.build m entries) k =
    match JsMap.get (rev entries) k with
    | Some v => Some v
    | None => JsMap.get m k
    end.
Proof.
  induction entries as [| [k0 v0] entries IH]; intros m k; simpl;
    [reflexivity |].
  unfold JsMap.build in *. rewrite IH, get_app, get_set. simpl.
  destruct (JsMap.get (rev entries) k); [reflexivity |].
  destruct (String.eqb k0 k); reflexivity.
Qed.

Lemma build_Forall (P : string * V -> Prop) (entries : list (string * V)) :
  forall m, Forall P m -> Forall P entries -> Forall P (JsMap.build m entries).
Proof.
  induction entries as [| [k v] entries IH]; intros m Hm He; simpl;
    [assumption |].
  inversion He; subst. apply IH; [| assumption].
  apply set_Forall; auto.
Qed.

Lemma build_fresh (entries : list (string * V)) :
  forall m, NoDup (JsMap.keys m ++ map fst entries) ->
            JsMap.build m entries = m ++ entries.
Proof.
  induction entries as [| [k v] entries IH]; intros m Hnd; simpl.
  - now rewrite app_nil_r.
  - unfold JsMap.build in *.
    assert (Hfresh : ~ In k (JsMap.keys m)).
    { simpl in Hnd. apply NoDup_remove_2 in Hnd.
      intros Hin. apply Hnd, in_or_app. now left. }
    rewrite set_key_fresh by assumption.
    rewrite IH.
    + now rewrite <- app_assoc.
    + unfold JsMap.keys in *. rewrite map_app, <- app_assoc. exact Hnd.
Qed.

End WithValue.
End JsMapFacts.

(** ** Order of first occurrence *)

Lemma first_occurrences_In (l : list string) :
  forall seen k,
    In k (first_occurrences seen l) <-> In k l /\ ~ In k seen.
Proof.
  induction l as [| k0 l IH]; intros seen k; simpl; [tauto |].
  destruct (mem k0 seen) eqn:Hmem.
  - apply JsMapFacts.mem_In in Hmem. rewrite IH.
    split; [tauto |]. intros [[-> | Hin] Hnin]; tauto.
  - apply JsMapFacts.mem_not_In in Hmem. simpl. rewrite IH, in_app_iff. simpl.
    destruct (string_dec k0 k) as [-> | Hneq]; tauto.
Qed.

Lemma first_occurrences_NoDup (l : list string) :
  forall seen, NoDup (first_occurrences seen l).
Proof.
  induction l as [| k0 l IH]; intros seen; simpl; [constructor |].
  destruct (mem k0 seen); [apply IH |].
  constructor; [| apply IH].
  rewrite first_occurrences_In, in_app_iff. simpl. tauto.
Qed.

(** ** Deduplication by [new Map] *)

Lemma get_entries (tracks : list SpotifyTrack) (k : string) :
  JsMap.get (map (fun track => (track_id track, track)) tracks) k =
  find (fun track => String.eqb (track_id track) k) tracks.
Proof.
  induction tracks as [| track tracks IH]; simpl; [reflexivity |].
  destruct (String.eqb (track_id track) k); [reflexivity | apply IH].
Qed.

Lemma entries_keyed (tracks : list SpotifyTrack) :
  Forall (fun e => track_id (snd e) = fst e)
         (JsMap.of_entries (map (fun track => (track_id track, track)) tracks)).
Proof.
  apply JsMapFacts.build_Forall; [constructor |].
  apply Forall_forall. intros e He.
  apply in_map_iff in He as (track & <- & _). reflexivity.
Qed.

Lemma keyed_values (m : JsMap.t SpotifyTrack) :
  Forall (fun e => track_id (snd e) = fst e) m ->
  map track_id (JsMap.values m) = JsMap.keys m.
Proof.
  unfold JsMap.values, JsMap.keys. rewrite map_map.
  intros Hm. apply map_ext_in. intros e He.
  now apply (proj1 (Forall_forall _ _) Hm).
Qed.

Lemma uniqueTracks_ids (tracks : list SpotifyTrack) :
  map track_id (uniqueTracks tracks) =
  first_occurrences [] (map track_id tracks).
Proof.
  unfold uniqueTracks.
  rewrite (keyed_values _ (entries_keyed tracks)).
  unfold JsMap.of_entries. rewrite JsMapFacts.build_keys. simpl.
  now rewrite map_map.
Qed.

Lemma uniqueTracks_ids_NoDup (tracks : list SpotifyTrack) :
  NoDup (map track_id (uniqueTracks tracks)).
Proof. rewrite uniqueTracks_ids. apply first_occurrences_NoDup. Qed.

Lemma uniqueTracks_ids_In (tracks : list SpotifyTrack) (k : string) :
  In k (map track_id (uniqueTracks tracks)) <-> In k (map track_id tracks).
Proof. rewrite uniqueTracks_ids, first_occurrences_In. simpl. tauto. Qed.

Lemma uniqueTracks_last (tracks : list SpotifyTrack) (u : SpotifyTrack) :
  In u (uniqueTracks tracks) -> last_with_id tracks (track_id u) = Some u.
Proof.
  unfold uniqueTracks, JsMap.values, last_with_id. intros Hin.
  apply in_map_iff in Hin as ([k u'] & Hu & Hin). simpl in Hu; subst u'.
  pose proof (entries_keyed tracks) as Hkeyed.
  pose proof (proj1 (Forall_forall _ _) Hkeyed _ Hin) as Hk. simpl in Hk.
  subst k.
  apply JsMapFacts.In_get in Hin.
  - unfold JsMap.of_entries in Hin.
    rewrite JsMapFacts.build_get, <- map_rev, get_entries in Hin.
    destruct (find _ (rev tracks)); [assumption | discriminate].
  - rewrite <- (keyed_values _ Hkeyed). apply uniqueTracks_ids_NoDup.
Qed.

Lemma uniqueTracks_NoDup_id (tracks : list SpotifyTrack) :
  NoDup (map track_id tracks) -> uniqueTracks tracks = tracks.
Proof.
  intros Hnd. unfold uniqueTracks, JsMap.of_entries.
  rewrite JsMapFacts.build_fresh.
  - unfold JsMap.empty, JsMap.values. simpl. rewrite map_map. simpl.
    apply map_id.
  - simpl. now rewrite map_map.
Qed.

(** C4 (as stated, refuted): of two plays of the same track the list of
    unique tracks keeps the later one, not the first. *)
Lemma C4_counterexample :
  uniqueTracks [Sample.morning; Sample.evening] = [Sample.evening] /\
  first_with_id [Sample.morning; Sample.evening] "a" = Some Sample.morning /\
  ~ (forall u, In u (uniqueTracks [Sample.morning; Sample.evening]) ->
               first_with_id [Sample.morning; Sample.evening] (track_id u) = Some u).
Proof.
  split; [reflexivity | split; [reflexivity |]].
  intros Hfirst.
  specialize (Hfirst Sample.evening (or_introl eq_refl)).
  discriminate Hfirst.
Qed.

(** ** The enrichment loop *)

Section EnricherFacts.

Variable fetch : string -> Fetched SoundStatData.

Lemma request_fails_analysis (k : string) :
  request_fails fetch k = true <-> analysis fetch k = None.
Proof.
  unfold request_fails, analysis.
  destruct (fetch (url_of k)) as [e | response]; [tauto |].
  destruct (ok response); [| tauto].
  destruct (json response) as [e | [| keys [features |]]];
    split; (reflexivity || discriminate).
Qed.

(** An iteration never throws: it records the request and stores the
    entry, if there is one. *)
Lemma analyze_track_step (s : Enrichment) (track : SpotifyTrack) :
  analyze_track fetch s track =
  inr {| featuresMap := store fetch (featuresMap s) track;
         requests := requests s ++ [track_url track] |}.
Proof.
  unfold analyze_track, analyze_try, store, analysis, track_url, url_of.
  destruct (fetch _) as [e | response]; simpl; [reflexivity |].
  destruct (ok response); simpl.
  - destruct (json response) as [e | [| keys [features |]]]; reflexivity.
  - destruct (text response); reflexivity.
Qed.

Lemma for_each_analyze (unique : list SpotifyTrack) :
  forall s,
    for_each (analyze_track fetch) unique s =
    inr {| featuresMap := fold_left (store fetch) unique (featuresMap s);
           requests := requests s ++ map track_url unique |}.
Proof.
  induction unique as [| track unique IH]; intros s; simpl.
  - rewrite app_nil_r. now destruct s.
  - rewrite analyze_track_step. simpl. rewrite IH. simpl.
    now rewrite <- app_assoc.
Qed.

Lemma enrich_total (tracks : list SpotifyTrack) :
  enrich fetch tracks =
  inr {| featuresMap := fold_left (store fetch) (uniqueTracks tracks) JsMap.empty;
         requests := map track_url (uniqueTracks tracks) |}.
Proof. unfold enrich. now rewrite for_each_analyze. Qed.

Lemma mem_cons (k k0 : string) (l : list string) :
  mem k (k0 :: l) = String.eqb k k0 || mem k l.
Proof. reflexivity. Qed.

Lemma get_fold_store (l : list SpotifyTrack) :
  forall m k,
    JsMap.get (fold_left (store fetch) l m) k =
    match (if mem k (map track_id l) then analysis fetch k else None) with
    | Some features => Some features
    | None => JsMap.get m k
    end.
Proof.
  induction l as [| track l IH]; intros m k; [reflexivity |].
  cbn [fold_left map]. rewrite IH, mem_cons. unfold store.
  destruct (String.eqb k (track_id track)) eqn:Hk; cbn [orb].
  - apply String.eqb_eq in Hk; subst k.
    destruct (mem (track_id track) (map track_id l));
      destruct (analysis fetch (track_id track)) as [features |];
      try reflexivity.
    now rewrite JsMapFacts.get_set, String.eqb_refl.
  - destruct (mem k (map track_id l)), (analysis fetch k); try reflexivity;
      (destruct (analysis fetch (track_id track)); [| reflexivity]);
      rewrite JsMapFacts.get_set, String.eqb_sym, Hk; reflexivity.
Qed.

Lemma url_of_injective (k k' : string) : url_of k = url_of k' -> k = k'.
Proof.
  unfold url_of, SOUNDSTAT_BASE_URL. simpl. intros H. now injection H.
Qed.

Lemma requests_NoDup (unique : list SpotifyTrack) :
  NoDup (map track_id unique) -> NoDup (map track_url unique).
Proof.
  induction unique as [| track unique IH]; simpl; intros Hnd; [constructor |].
  inversion Hnd as [| ? ? Hnin Hnd']; subst.
  constructor; [| now apply IH].
  intros Hin. apply Hnin.
  apply in_map_iff in Hin as (u & Hurl & Hu).
  apply url_of_injective in Hurl. rewrite <- Hurl. now apply in_map.
Qed.

End EnricherFacts.

(** C4 (amended): the list of unique tracks holds one track per identifier
    of the input, in the order in which the identifiers first occur, and the
    track kept for an identifier is the last one of the input bearing it;
    one analysis request is issued per unique identifier. *)
Theorem C4_unique_tracks_last_wins
    (fetch : string -> Fetched SoundStatData) (tracks : list SpotifyTrack) :
  map track_id (uniqueTracks tracks) = first_occurrences [] (map track_id tracks) /\
  NoDup (map track_id (uniqueTracks tracks)) /\
  (forall k, In k (map track_id (uniqueTracks tracks)) <->
             In k (map track_id tracks)) /\
  (forall u, In u (uniqueTracks tracks) ->
             last_with_id tracks (track_id u) = Some u) /\
  (exists s, enrich fetch tracks = inr s /\
             requests s = map url_of (map track_id (uniqueTracks tracks)) /\
             NoDup (requests s)).
Proof.
  split; [apply uniqueTracks_ids |].
  split; [apply uniqueTracks_ids_NoDup |].
  split; [apply uniqueTracks_ids_In |].
  split; [apply uniqueTracks_last |].
  eexists. split; [apply enrich_total |]. simpl. split.
  - now rewrite map_map.
  - apply requests_NoDup, uniqueTracks_ids_NoDup.
Qed.

Lemma C4_witness :
  last_with_id [Sample.morning; Sample.other; Sample.evening] "a" = Some Sample.evening.
Proof.
  apply (proj1 (proj2 (proj2 (proj2
           (C4_unique_tracks_last_wins Sample.soundstat
              [Sample.morning; Sample.other; Sample.evening]))))
           Sample.evening).
  left. reflexivity.
Defined.

(** C6: the enrichment stage never throws; a track whose request fails
    (transport error, non-success status, no features object in the
    payload) has no entry in the mapping returned, every other input track
    has the entry of its own analysis, and a request is sent for every
    unique track whatever happened to the ones before. *)
Theorem C6_failures_are_skipped
    (fetch : string -> Fetched SoundStatData) (tracks : list SpotifyTrack) :
  exists featuresMap,
    getSoundStatAudioFeatures fetch tracks = inr featuresMap /\
    (forall track, In track tracks ->
                   request_fails fetch (track_id track) = true ->
                   JsMap.get featuresMap (track_id track) = None) /\
    (forall track, In track tracks ->
                   JsMap.get featuresMap (track_id track) =
                   analysis fetch (track_id track)) /\
    (exists s, enrich fetch tracks = inr s /\
               requests s = map track_url (uniqueTracks tracks)).
Proof.
  unfold getSoundStatAudioFeatures. rewrite enrich_total. simpl.
  eexists. split; [reflexivity |].
  assert (Hget : forall track, In track tracks ->
            JsMap.get (fold_left (store fetch) (uniqueTracks tracks) JsMap.empty)
                      (track_id track) = analysis fetch (track_id track)).
  { intros track Hin. rewrite get_fold_store.
    assert (Hmem : mem (track_id track) (map track_id (uniqueTracks tracks)) = true).
    { apply JsMapFacts.mem_In, uniqueTracks_ids_In. now apply in_map. }
    rewrite Hmem. now destruct (analysis fetch (track_id track)). }
  split; [| split].
  - intros track Hin Hfails. rewrite Hget by assumption.
    now apply request_fails_analysis.
  - exact Hget.
  - eexists. split; reflexivity.
Qed.

Lemma C6_witness :
  exists featuresMap,
    getSoundStatAudioFeatures Sample.soundstat
      [Sample.morning; Sample.other; Sample.evening] = inr featuresMap /\
    JsMap.get featuresMap "b" = None /\
    JsMap.get featuresMap "a" = analysis Sample.soundstat "a".
Proof.
  destruct (C6_failures_are_skipped Sample.soundstat
              [Sample.morning; Sample.other; Sample.evening])
    as (featuresMap & Hrun & Hfail & Hget & _).
  exists featuresMap. split; [exact Hrun | split].
  - apply (Hfail Sample.other); [right; left; reflexivity | reflexivity].
  - apply (Hget Sample.morning). left. reflexivity.
Defined.




(** C10: two features mappings that agree on valence, energy and
    acousticness for every identifier give the same summary, hence the same
    classification, whatever their danceability and tempo. *)
Theorem C10_danceability_tempo_ignored
    (tracks : list SpotifyTrack) (m1 m2 : JsMap.t AudioFeatures) :
  agree_on_metrics m1 m2 ->
  calculateAggregateMood tracks m1 = calculateAggregateMood tracks m2 /\
  (forall now,
      option_map (fun mood => mapToElement mood tracks now)
                 (calculateAggregateMood tracks m1) =
      option_map (fun mood => mapToElement mood tracks now)
                 (calculateAggregateMood tracks m2)).
Proof.
  intros Hagree.
  assert (Heq : calculateAggregateMood tracks m1 = calculateAggregateMood tracks m2).
  { rewrite !calculateAggregateMood_lookups.
    apply summarize_metrics, lookups_agree, Hagree. }
  split; [exact Heq | intros now; now rewrite Heq].
Qed.

Lemma C10_witness :
  calculateAggregateMood [Sample.morning; Sample.other] Sample.analysed =
  calculateAggregateMood [Sample.morning; Sample.other] Sample.analysed'.
Proof.
  apply (C10_danceability_tempo_ignored
           [Sample.morning; Sample.other] Sample.analysed Sample.analysed').
  intros k. unfold Sample.analysed, Sample.analysed'.
  rewrite !JsMapFacts.get_set.
  destruct (String.eqb "b" k); [reflexivity |].
  destruct (String.eqb "a" k); reflexivity.
Defined.

(** ** The pipeline *)

Lemma getRecentlyPlayed_not_ok
    (accessToken : option string) (response : Response RecentlyPlayedData) :
  truthy accessToken = true -> ok response = false ->
  getRecentlyPlayed accessToken (inr response) = inr [].
Proof.
  intros Htoken Hok. unfold getRecentlyPlayed.
  rewrite Htoken. simpl. now rewrite Hok.
Qed.

(** C7: once the access token is there, a non-success status of the
    recently-played endpoint is caught in [getRecentlyPlayed], which returns
    the empty list; the analysis then returns no element, [main] writes no
    file, reports no error and the exit status is 0. *)
Theorem C7_history_failure_degrades_to_empty
    (w : World) (accessToken : option string)
    (response : Response RecentlyPlayedData) :
  invalid_credentials w = false ->
  getAccessToken (token_endpoint w) = inr accessToken ->
  truthy accessToken = true ->
  recently_played_endpoint w = inr response ->
  ok response = false ->
  getRecentlyPlayed accessToken (recently_played_endpoint w) = inr [] /\
  analyzeDailyMood w = inr None /\
  main w = {| exitStatus := 0; files := []; reported := None |}.
Proof.
  intros Hcred Htoken Htruthy Hresp Hok.
  assert (Hplayed : getRecentlyPlayed accessToken (recently_played_endpoint w) = inr []).
  { rewrite Hresp. now apply getRecentlyPlayed_not_ok. }
  assert (Hrun : analyzeDailyMood w = inr None).
  { unfold analyzeDailyMood. rewrite Htoken. simpl. now rewrite Hplayed. }
  repeat split; try assumption.
  unfold main. now rewrite Hcred, Hrun.
Qed.

Lemma C7_witness :
  main Sample.history_down = {| exitStatus := 0; files := []; reported := None |}.
Proof.
  apply (C7_history_failure_degrades_to_empty Sample.history_down (Some "token")
           {| ok := false; status := 500; statusText := "Internal Server Error";
              text := inr ""; json := inl SyntaxError |});
    reflexivity.
Defined.

(** * Further properties of the pipeline *)

(** ** The credential check *)

Lemma prefix_app (sub s : string) :
  String.prefix sub s = true <-> exists post, s = (sub ++ post)%string.
Proof.
  revert s. induction sub as [| c sub IH]; intros [| d s]; simpl.
  - split; [intros _; now exists "" | reflexivity].
  - split; [intros _; now exists (String d s) | reflexivity].
  - split; [discriminate | intros (post & Hpost); discriminate].
  - destruct (Ascii.ascii_dec c d) as [<- | Hneq].
    + rewrite IH. split; intros (post & Hpost); exists post.
      * now rewrite Hpost.
      * now injection Hpost.
    + split; [discriminate |].
      intros (post & Hpost). injection Hpost as Hd _. now symmetry in Hd.
Qed.

Lemma includes_unfold (s sub : string) :
  includes s sub =
  if String.prefix sub s then true
  else match s with
       | EmptyString => false
       | String _ rest => includes rest sub
       end.
Proof. destruct s; reflexivity. Qed.

Lemma includes_occurs (s sub : string) :
  includes s sub = true <-> occurs_in sub s.
Proof.
  unfold occurs_in. split.
  - induction s as [| c s IH]; rewrite includes_unfold;
      destruct (String.prefix sub _) eqn:Hpre.
    + intros _. apply prefix_app in Hpre as (post & Hpost).
      now exists "", post.
    + discriminate.
    + intros _. apply prefix_app in Hpre as (post & Hpost).
      now exists "", post.
    + intros Hrest. destruct (IH Hrest) as (pre & post & Hs).
      exists (String c pre), post. simpl. now rewrite Hs.
  - intros (pre & post & Hs). revert s Hs.
    induction pre as [| c pre IH]; intros s Hs; rewrite includes_unfold.
    + assert (Hpre : String.prefix sub s = true)
        by (apply prefix_app; now exists post).
      now rewrite Hpre.
    + destruct (String.prefix sub s); [reflexivity |].
      subst s. simpl. now apply IH.
Qed.

Lemma invalid_credentials_refused (w : World) :
  invalid_credentials w = true <->
  refused (SPOTIFY_CLIENT_ID w) \/ refused (SPOTIFY_CLIENT_SECRET w)
  \/ refused (SPOTIFY_REFRESH_TOKEN w).
Proof.
  unfold invalid_credentials, refused.
  destruct (SPOTIFY_CLIENT_ID w) as [clientId |]; [| tauto].
  destruct (SPOTIFY_CLIENT_SECRET w) as [clientSecret |]; [| tauto].
  destruct (SPOTIFY_REFRESH_TOKEN w) as [refreshToken |]; [| tauto].
  rewrite !orb_true_iff, !String.eqb_eq, !includes_occurs. tauto.
Qed.


(** ** Obtaining the token *)

Lemma main_rejected (w : World) (error : Exn) :
  invalid_credentials w = false ->
  analyzeDailyMood w = inl error ->
  main w = {| exitStatus := 0; files := []; reported := Some error |}.
Proof. intros Hcred Hrun. unfold main. now rewrite Hcred, Hrun. Qed.

Lemma main_nothing (w : World) :
  invalid_credentials w = false ->
  analyzeDailyMood w = inr None ->
  main w = {| exitStatus := 0; files := []; reported := None |}.
Proof. intros Hcred Hrun. unfold main. now rewrite Hcred, Hrun. Qed.

(** X2: with valid credentials, a failure to obtain the access token
    (transport error, non-success status, unreadable body) is thrown again
    by [getAccessToken] and ends the run with the error reported, no file
    written, and exit status 0. *)
Theorem token_failure_is_reported (w : World) :
  invalid_credentials w = false ->
  (forall error, token_endpoint w = inl error ->
     main w = {| exitStatus := 0; files := []; reported := Some error |}) /\
  (forall response, token_endpoint w = inr response -> ok response = false ->
     main w = {| exitStatus := 0; files := [];
                 reported := Some (Error ("Failed to get access token: "
                                          ++ statusText response)) |}) /\
  (forall response error,
     token_endpoint w = inr response -> ok response = true ->
     json response = inl error ->
     main w = {| exitStatus := 0; files := []; reported := Some error |}).
Proof.
  intros Hcred. repeat split.
  - intros error Htoken. apply main_rejected; [assumption |].
    unfold analyzeDailyMood. now rewrite Htoken.
  - intros response Htoken Hok. apply main_rejected; [assumption |].
    unfold analyzeDailyMood, getAccessToken. rewrite Htoken. simpl.
    now rewrite Hok.
  - intros response error Htoken Hok Hjson.
    apply main_rejected; [assumption |].
    unfold analyzeDailyMood, getAccessToken. rewrite Htoken. simpl.
    now rewrite Hok, Hjson.
Qed.

Lemma token_failure_is_reported_witness :
  main Runs.token_refused =
  {| exitStatus := 0; files := [];
     reported := Some (Error "Failed to get access token: Bad Request") |}.
Proof.
  apply (proj1 (proj2 (token_failure_is_reported Runs.token_refused eq_refl))
           {| ok := false; status := 400; statusText := "Bad Request";
              text := inr ""; json := inl SyntaxError |});
    reflexivity.
Defined.

(** X3: when the token endpoint answers with success but the document holds
    no usable [access_token] (missing or empty), [getRecentlyPlayed] throws
    "Access token not set" whatever the recently-played endpoint would
    answer; the run reports it, writes nothing and exits with status 0. *)
Theorem blank_token_is_reported
    (w : World) (response : Response TokenData) (data : TokenData) :
  invalid_credentials w = false ->
  token_endpoint w = inr response -> ok response = true ->
  json response = inr data -> truthy (access_token data) = false ->
  (forall fetched,
      getRecentlyPlayed (access_token data) fetched =
      inl (Error "Access token not set")) /\
  main w = {| exitStatus := 0; files := [];
              reported := Some (Error "Access token not set") |}.
Proof.
  intros Hcred Htoken Hok Hjson Hblank.
  assert (Hthrow : forall fetched,
             getRecentlyPlayed (access_token data) fetched =
             inl (Error "Access token not set")).
  { intros fetched. unfold getRecentlyPlayed. now rewrite Hblank. }
  split; [exact Hthrow |].
  apply main_rejected; [assumption |].
  unfold analyzeDailyMood, getAccessToken. rewrite Htoken. simpl.
  rewrite Hok, Hjson. simpl. now rewrite Hthrow.
Qed.

Lemma blank_token_is_reported_witness :
  main Runs.token_blank =
  {| exitStatus := 0; files := [];
     reported := Some (Error "Access token not set") |}.
Proof.
  apply (blank_token_is_reported Runs.token_blank
           {| ok := true; status := 200; statusText := "OK"; text := inr "";
              json := inr {| access_token := None |} |}
           {| access_token := None |});
    reflexivity.
Defined.

(** ** Fetching the history *)

Lemma getRecentlyPlayed_played
    (accessToken : option string) (fetched : Fetched RecentlyPlayedData) :
  truthy accessToken = true ->
  getRecentlyPlayed accessToken fetched = inr (played fetched).
Proof.
  intros Htoken. unfold getRecentlyPlayed, played. rewrite Htoken. simpl.
  destruct fetched as [error | response]; simpl; [reflexivity |].
  destruct (ok response); simpl; [| reflexivity].
  destruct (json response) as [error | [| items]]; reflexivity.
Qed.

(** X4: once a token is held [getRecentlyPlayed] never throws.  Whatever
    goes wrong gives the empty list, and a result that is not empty is the
    list of the items of a success answer, one track per item in the
    server's order. *)
Theorem getRecentlyPlayed_never_throws
    (accessToken : option string) (fetched : Fetched RecentlyPlayedData) :
  truthy accessToken = true ->
  exists tracks,
    getRecentlyPlayed accessToken fetched = inr tracks /\
    (tracks <> [] ->
     exists response items,
       fetched = inr response /\ ok response = true /\
       json response = inr (Items items) /\
       tracks = map track_of_item items /\
       map track_id tracks = map (fun item => item_track_id (item_track item)) items /\
       map playedAt tracks = map played_at items).
Proof.
  intros Htoken. exists (played fetched).
  split; [now apply getRecentlyPlayed_played |].
  unfold played.
  destruct fetched as [error | response]; [congruence |].
  destruct (ok response) eqn:Hok; [| congruence].
  destruct (json response) as [error | [| items]] eqn:Hjson; try congruence.
  intros _. exists response, items. rewrite !map_map. now repeat split.
Qed.

Lemma getRecentlyPlayed_never_throws_witness :
  exists tracks,
    getRecentlyPlayed (Some "token")
      (Sample.answer 200 "OK" (inr (Items Runs.three_plays))) = inr tracks /\
    map track_id tracks = ["a"; "b"; "a"].
Proof.
  destruct (getRecentlyPlayed_never_throws (Some "token")
              (Sample.answer 200 "OK" (inr (Items Runs.three_plays))) eq_refl)
    as (tracks & Hrun & _).
  exists tracks. split; [exact Hrun |].
  injection Hrun as <-. reflexivity.
Defined.

(** ** The mapping built by the enricher *)

Section EnrichedFacts.

Variable fetch : string -> Fetched SoundStatData.

Lemma getSoundStatAudioFeatures_enriched (tracks : list SpotifyTrack) :
  getSoundStatAudioFeatures fetch tracks = inr (enriched fetch tracks).
Proof.
  unfold getSoundStatAudioFeatures. now rewrite enrich_total.
Qed.

Lemma succeeds_analysis (k : string) :
  negb (request_fails fetch k) = true <->
  exists features, analysis fetch k = Some features.
Proof.
  pose proof (request_fails_analysis fetch k) as Hfail.
  destruct (request_fails fetch k); simpl.
  - rewrite (proj1 Hfail eq_refl).
    split; [discriminate | intros (features & Hsome); discriminate].
  - destruct (analysis fetch k) as [features |].
    + split; [now exists features | reflexivity].
    + destruct Hfail as [_ Hfail]. now specialize (Hfail eq_refl).
Qed.

Lemma mem_ext (k : string) (l1 l2 : list string) :
  (In k l1 <-> In k l2) -> mem k l1 = mem k l2.
Proof.
  intros Hiff.
  destruct (mem k l1) eqn:H1, (mem k l2) eqn:H2; try reflexivity.
  - apply JsMapFacts.mem_In, Hiff, JsMapFacts.mem_In in H1. congruence.
  - apply JsMapFacts.mem_In, Hiff, JsMapFacts.mem_In in H2. congruence.
Qed.

(** The entry of an identifier is the analysis of its own request when the
    identifier is one of the input, and nothing otherwise. *)
Lemma enriched_get (tracks : list SpotifyTrack) (k : string) :
  JsMap.get (enriched fetch tracks) k =
  if mem k (map track_id tracks) then analysis fetch k else None.
Proof.
  unfold enriched. rewrite get_fold_store.
  rewrite (mem_ext k _ (map track_id tracks) (uniqueTracks_ids_In tracks k)).
  simpl. destruct (mem k (map track_id tracks)); [| reflexivity].
  now destruct (analysis fetch k).
Qed.

Lemma analysis_id (k : string) (features : AudioFeatures) :
  analysis fetch k = Some features -> features_id features = k.
Proof.
  unfold analysis.
  destruct (fetch (url_of k)) as [error | response]; [discriminate |].
  destruct (ok response); [| discriminate].
  destruct (json response) as [error | [| keys [payload |]]]; try discriminate.
  now intros [= <-].
Qed.

Lemma fold_store_keys (l : list SpotifyTrack) :
  forall m,
    NoDup (JsMap.keys m ++ map track_id l) ->
    JsMap.keys (fold_left (store fetch) l m) =
    JsMap.keys m
    ++ filter (fun k => negb (request_fails fetch k)) (map track_id l).
Proof.
  induction l as [| track l IH]; intros m Hnd; simpl.
  - now rewrite app_nil_r.
  - simpl in Hnd.
    pose proof (NoDup_remove_1 _ _ _ Hnd) as Hrest.
    pose proof (NoDup_remove_2 _ _ _ Hnd) as Hfresh.
    unfold store at 2.
    destruct (negb (request_fails fetch (track_id track))) eqn:Hok.
    + destruct (proj1 (succeeds_analysis _) Hok) as (features & ->).
      rewrite JsMapFacts.set_key_fresh
        by (intros Hin; apply Hfresh, in_or_app; now left).
      rewrite IH.
      * unfold JsMap.keys. rewrite map_app, <- app_assoc. reflexivity.
      * unfold JsMap.keys in *. rewrite map_app, <- app_assoc. exact Hnd.
    + apply negb_false_iff, request_fails_analysis in Hok. rewrite Hok.
      now apply IH.
Qed.

Lemma first_occurrences_length (l : list string) :
  forall seen, List.length (first_occurrences seen l) <= List.length l.
Proof.
  induction l as [| k l IH]; intros seen; simpl; [lia |].
  destruct (mem k seen); simpl.
  - specialize (IH seen). lia.
  - specialize (IH (seen ++ [k])). lia.
Qed.

(** X5: the keys of the mapping returned by the enricher are the
    identifiers whose request succeeds, each once, in the order in which
    they first occur in the input; its size is at most the number of unique
    tracks, itself at most the number of plays. *)
Theorem enriched_keys (tracks : list SpotifyTrack) :
  JsMap.keys (enriched fetch tracks) =
    filter (fun k => negb (request_fails fetch k))
           (first_occurrences [] (map track_id tracks)) /\
  NoDup (JsMap.keys (enriched fetch tracks)) /\
  JsMap.size (enriched fetch tracks) <= List.length (uniqueTracks tracks) /\
  List.length (uniqueTracks tracks) <= List.length tracks.
Proof.
  assert (Hkeys : JsMap.keys (enriched fetch tracks) =
                  filter (fun k => negb (request_fails fetch k))
                         (first_occurrences [] (map track_id tracks))).
  { unfold enriched. rewrite fold_store_keys.
    - simpl. now rewrite uniqueTracks_ids.
    - simpl. apply uniqueTracks_ids_NoDup. }
  assert (Hunique : List.length (uniqueTracks tracks) <= List.length tracks).
  { rewrite <- (length_map track_id (uniqueTracks tracks)), uniqueTracks_ids.
    rewrite <- (length_map track_id tracks).
    apply first_occurrences_length. }
  split; [exact Hkeys |]. split; [| split; [| exact Hunique]].
  - rewrite Hkeys. apply NoDup_filter, first_occurrences_NoDup.
  - unfold JsMap.size.
    rewrite <- (length_map fst (enriched fetch tracks)).
    change (map fst (enriched fetch tracks))
      with (JsMap.keys (enriched fetch tracks)).
    rewrite Hkeys, <- (length_map track_id (uniqueTracks tracks)), uniqueTracks_ids.
    apply filter_length_le.
Qed.

(** X6: every entry of the mapping returned by the enricher belongs to an
    input track whose request succeeded, and carries its key as [id]. *)
Theorem enriched_entry
    (tracks : list SpotifyTrack) (k : string) (features : AudioFeatures) :
  JsMap.get (enriched fetch tracks) k = Some features ->
  In k (map track_id tracks) /\
  request_fails fetch k = false /\
  analysis fetch k = Some features /\
  features_id features = k.
Proof.
  rewrite enriched_get.
  destruct (mem k (map track_id tracks)) eqn:Hmem; [| discriminate].
  intros Hsome. apply JsMapFacts.mem_In in Hmem.
  repeat split; try assumption.
  - destruct (request_fails fetch k) eqn:Hfail; [| reflexivity].
    apply request_fails_analysis in Hfail. congruence.
  - now apply analysis_id.
Qed.

Lemma fold_store_ids (l1 : list SpotifyTrack) :
  forall l2 m,
    map track_id l1 = map track_id l2 ->
    fold_left (store fetch) l1 m = fold_left (store fetch) l2 m.
Proof.
  induction l1 as [| t1 l1 IH]; intros [| t2 l2] m Hids; simpl in *;
    try discriminate; [reflexivity |].
  injection Hids as Hid Hids.
  unfold store at 2 4. rewrite Hid. now apply IH.
Qed.

(** X7: the enricher looks at identifiers only.  Two play lists with the
    same sequence of identifiers (whatever their names, artists and
    timestamps) give the same mapping and the same requests in the same
    order. *)
Theorem enrich_reads_identifiers_only (tracks1 tracks2 : list SpotifyTrack) :
  map track_id tracks1 = map track_id tracks2 ->
  enrich fetch tracks1 = enrich fetch tracks2 /\
  getSoundStatAudioFeatures fetch tracks1 = getSoundStatAudioFeatures fetch tracks2.
Proof.
  intros Hids.
  assert (Hunique : map track_id (uniqueTracks tracks1) =
                    map track_id (uniqueTracks tracks2))
    by now rewrite !uniqueTracks_ids, Hids.
  assert (Henrich : enrich fetch tracks1 = enrich fetch tracks2).
  { rewrite !enrich_total. f_equal. f_equal.
    - now apply fold_store_ids.
    - change track_url with (fun track => url_of (track_id track)).
      rewrite <- !(map_map track_id url_of). now rewrite Hunique. }
  split; [exact Henrich |].
  unfold getSoundStatAudioFeatures. now rewrite Henrich.
Qed.

End EnrichedFacts.

Lemma enriched_keys_witness :
  JsMap.keys (enriched Sample.soundstat
                [Sample.other; Sample.morning; Sample.unknown; Sample.evening]) = ["a"].
Proof.
  rewrite (proj1 (enriched_keys Sample.soundstat
                    [Sample.other; Sample.morning; Sample.unknown; Sample.evening])).
  reflexivity.
Defined.

Lemma enriched_entry_witness :
  request_fails Sample.soundstat "a" = false /\
  features_id (Sample.features_of "a" 0.9 0.8 0.2 0.7 128) = "a".
Proof.
  destruct (enriched_entry Sample.soundstat
              [Sample.morning; Sample.other] "a"
              (Sample.features_of "a" 0.9 0.8 0.2 0.7 128) eq_refl)
    as (_ & Hok & _ & Hid).
  split; assumption.
Defined.

Lemma enrich_reads_identifiers_only_witness :
  enrich Sample.soundstat [Sample.morning; Sample.other] =
  enrich Sample.soundstat [Sample.evening; Sample.other].
Proof.
  apply (enrich_reads_identifiers_only Sample.soundstat
           [Sample.morning; Sample.other] [Sample.evening; Sample.other]).
  reflexivity.
Defined.

(** ** More on the aggregator *)

Lemma lookups_matching (audioFeatures : JsMap.t AudioFeatures)
    (tracks : list SpotifyTrack) :
  lookups audioFeatures (matching audioFeatures tracks) =
  lookups audioFeatures tracks.
Proof.
  induction tracks as [| track tracks IH]; simpl; [reflexivity |].
  destruct (JsMap.get audioFeatures (track_id track)) as [features |] eqn:Hget;
    simpl.
  - now rewrite Hget, IH.
  - exact IH.
Qed.

Lemma filter_nil_iff {A} (f : A -> bool) (l : list A) :
  filter f l = [] <-> forall x, In x l -> f x = false.
Proof.
  induction l as [| a l IH]; simpl; [tauto |].
  destruct (f a) eqn:Hfa; split.
  - discriminate.
  - intros Hall. specialize (Hall a (or_introl eq_refl)). congruence.
  - intros Hnil x [<- | Hin]; [assumption | now apply IH].
  - intros Hall. apply IH. intros x Hin. apply Hall. now right.
Qed.

(** X8: tracks without a features entry never weigh on the result: the
    aggregator gives the same means and the same analyzedCount on the input
    and on the input with these tracks left out; only trackCount differs,
    and on the reduced input it equals analyzedCount. *)
Theorem unmatched_tracks_are_ignored
    (tracks : list SpotifyTrack) (audioFeatures : JsMap.t AudioFeatures) :
  means (calculateAggregateMood (matching audioFeatures tracks) audioFeatures) =
    means (calculateAggregateMood tracks audioFeatures) /\
  option_map analyzedCount
    (calculateAggregateMood (matching audioFeatures tracks) audioFeatures) =
    option_map analyzedCount (calculateAggregateMood tracks audioFeatures) /\
  option_map trackCount
    (calculateAggregateMood (matching audioFeatures tracks) audioFeatures) =
    option_map analyzedCount (calculateAggregateMood tracks audioFeatures).
Proof.
  rewrite !calculateAggregateMood_lookups, lookups_matching.
  rewrite <- (lookups_length_matching audioFeatures tracks).
  destruct (lookups audioFeatures tracks); repeat split.
Qed.

(** ** Enrichment followed by aggregation *)

Lemma matching_enriched (fetch : string -> Fetched SoundStatData)
    (tracks : list SpotifyTrack) :
  matching (enriched fetch tracks) tracks = analysed_plays fetch tracks.
Proof.
  unfold matching, analysed_plays. apply filter_ext_in. intros track Hin.
  rewrite enriched_get.
  assert (Hmem : mem (track_id track) (map track_id tracks) = true)
    by (apply JsMapFacts.mem_In; now apply in_map).
  rewrite Hmem.
  pose proof (request_fails_analysis fetch (track_id track)) as Hfail.
  destruct (analysis fetch (track_id track)),
    (request_fails fetch (track_id track)); try reflexivity.
  - destruct Hfail as [Hfail _]. now specialize (Hfail eq_refl).
  - destruct Hfail as [_ Hfail]. now specialize (Hfail eq_refl).
Qed.

Lemma aggregate_of_enriched_none
    (fetch : string -> Fetched SoundStatData) (tracks : list SpotifyTrack) :
  calculateAggregateMood tracks (enriched fetch tracks) = None <->
  forall track, In track tracks -> request_fails fetch (track_id track) = true.
Proof.
  rewrite calculateAggregateMood_lookups.
  pose proof (lookups_length_matching (enriched fetch tracks) tracks) as Hlen.
  rewrite matching_enriched in Hlen.
  transitivity (analysed_plays fetch tracks = []).
  - destruct (lookups (enriched fetch tracks) tracks),
      (analysed_plays fetch tracks); simpl in *;
      split; (reflexivity || discriminate).
  - unfold analysed_plays. rewrite filter_nil_iff.
    split; intros Hall track Hin; specialize (Hall track Hin);
      now apply negb_false_iff.
Qed.

(** X9: on the mapping returned by the enricher for the same tracks, the
    aggregator gives no result exactly when the request of every play
    fails (in particular for no play at all); otherwise trackCount is the
    number of plays and analyzedCount the number of plays, repeats
    included, whose request succeeded. *)
Theorem aggregate_of_enriched
    (fetch : string -> Fetched SoundStatData) (tracks : list SpotifyTrack) :
  (calculateAggregateMood tracks (enriched fetch tracks) = None <->
   forall track, In track tracks ->
                 request_fails fetch (track_id track) = true) /\
  (forall m, calculateAggregateMood tracks (enriched fetch tracks) = Some m ->
             trackCount m = List.length tracks /\
             analyzedCount m = List.length (analysed_plays fetch tracks)).
Proof.
  split; [apply aggregate_of_enriched_none |].
  intros m. rewrite calculateAggregateMood_lookups. intros Hsome.
  apply summarize_some in Hsome as (_ & -> & ->).
  split; [reflexivity |].
  now rewrite lookups_length_matching, matching_enriched.
Qed.

Lemma aggregate_of_enriched_witness :
  analyzedCount
    {| avgValence := 0.9; avgEnergy := 0.8; avgAcousticness := 0.2;
       trackCount := 3; analyzedCount := 2 |} =
  List.length (analysed_plays Sample.soundstat
                 [Sample.morning; Sample.other; Sample.evening]).
Proof.
  apply (proj2 (aggregate_of_enriched Sample.soundstat
                  [Sample.morning; Sample.other; Sample.evening])).
  vm_compute. reflexivity.
Defined.

(** ** Whole runs *)

Lemma analyzeDailyMood_played (w : World) (accessToken : option string) :
  getAccessToken (token_endpoint w) = inr accessToken ->
  truthy accessToken = true ->
  analyzeDailyMood w =
  inr (if (List.length (played (recently_played_endpoint w)) =? 0)%nat then None
       else option_map
              (fun mood => mapToElement mood (played (recently_played_endpoint w))
                             (clock w))
              (calculateAggregateMood
                 (played (recently_played_endpoint w))
                 (enriched (soundstat_endpoint w)
                    (played (recently_played_endpoint w))))).
Proof.
  intros Htoken Htruthy. unfold analyzeDailyMood.
  rewrite Htoken. simpl.
  rewrite (getRecentlyPlayed_played _ _ Htruthy). simpl.
  destruct (List.length _ =? 0)%nat; [reflexivity |].
  rewrite getSoundStatAudioFeatures_enriched. simpl.
  now destruct (calculateAggregateMood _ _).
Qed.



(** X11: when the analysis request of every play fails, the run ends with
    "could not calculate mood": nothing is written, nothing is reported,
    the exit status is 0. *)
Theorem all_requests_failed_no_file (w : World) (accessToken : option string) :
  invalid_credentials w = false ->
  getAccessToken (token_endpoint w) = inr accessToken ->
  truthy accessToken = true ->
  (forall track, In track (played (recently_played_endpoint w)) ->
                 request_fails (soundstat_endpoint w) (track_id track) = true) ->
  main w = {| exitStatus := 0; files := []; reported := None |}.
Proof.
  intros Hcred Htoken Htruthy Hfail.
  apply main_nothing; [assumption |].
  rewrite (analyzeDailyMood_played w accessToken Htoken Htruthy).
  apply aggregate_of_enriched_none in Hfail.
  rewrite Hfail. now destruct (_ =? _)%nat.
Qed.

Lemma all_requests_failed_no_file_witness :
  main Runs.service_down = {| exitStatus := 0; files := []; reported := None |}.
Proof.
  apply (all_requests_failed_no_file Runs.service_down (Some "token"));
    reflexivity.
Defined.

Lemma mapToElement_fields (m : MoodData) (ts : list SpotifyTrack) (now : string) :
  mood (mapToElement m ts now) = m /\
  tracks (mapToElement m ts now) = ts /\
  date (mapToElement m ts now) = now.
Proof.
  unfold mapToElement; cbv zeta.
  repeat match goal with |- context [if ?b then _ else _] => destruct b end;
    repeat split.
Qed.

Lemma analyzeDailyMood_some (w : World) (element : ElementData) :
  analyzeDailyMood w = inr (Some element) ->
  exists played audioFeatures summary,
    played <> [] /\
    calculateAggregateMood played audioFeatures = Some summary /\
    element = mapToElement summary played (clock w).
Proof.
  unfold analyzeDailyMood.
  destruct (getAccessToken (token_endpoint w)) as [error | accessToken];
    [discriminate |]. simpl.
  destruct (getRecentlyPlayed accessToken (recently_played_endpoint w))
    as [error | played]; [discriminate |]. simpl.
  destruct played as [| track played]; [discriminate |]. simpl.
  destruct (getSoundStatAudioFeatures (soundstat_endpoint w) (track :: played))
    as [error | audioFeatures]; [discriminate |]. simpl.
  destruct (calculateAggregateMood (track :: played) audioFeatures)
    as [summary |] eqn:Hmood; [| discriminate].
  intros [= <-]. exists (track :: played), audioFeatures, summary.
  repeat split; [discriminate | assumption].
Qed.

(** X12: whatever a run writes is the single file "current_mood.json", and
    the element in it is well formed: its track list is not empty, trackCount
    is the length of that list, 1 <= analyzedCount <= trackCount, the label
    is the one the ordered rules give for the summary stored beside it, and
    the date is the clock value; such a run reports no error and exits with
    status 0. *)
Theorem written_element_is_well_formed
    (w : World) (name : string) (element : ElementData) :
  In (name, element) (files (main w)) ->
  name = "current_mood.json" /\
  files (main w) = [(name, element)] /\
  exitStatus (main w) = 0%Z /\
  reported (main w) = None /\
  tracks element <> [] /\
  trackCount (mood element) = List.length (tracks element) /\
  1 <= analyzedCount (mood element) <= trackCount (mood element) /\
  element_name element = Rules.classify (mood element) /\
  date element = clock w.
Proof.
  unfold main.
  destruct (invalid_credentials w); [contradiction |].
  destruct (analyzeDailyMood w) as [error | [produced |]] eqn:Hrun; simpl;
    try contradiction.
  destruct (writeFile w) as [error | []]; simpl; [contradiction |].
  intros [[= <- <-] | []].
  apply analyzeDailyMood_some in Hrun
    as (played & audioFeatures & summary & Hplayed & Hmood & ->).
  destruct (mapToElement_fields summary played (clock w)) as (-> & -> & ->).
  rewrite mapToElement_classify.
  rewrite calculateAggregateMood_lookups in Hmood.
  apply summarize_some in Hmood as (Hfound & -> & ->).
  repeat split; try assumption.
  - destruct (lookups audioFeatures played); [contradiction | simpl; lia].
  - rewrite lookups_length_matching. apply matching_length_le.
Qed.

Lemma written_element_is_well_formed_witness :
  files (main Runs.good_day) =
  [("current_mood.json",
    mapToElement {| avgValence := 0.9; avgEnergy := 0.8; avgAcousticness := 0.2;
                    trackCount := 3; analyzedCount := 2 |}
      (map track_of_item Runs.three_plays) "2024-05-02T00:00:00.000Z")].
Proof.
  apply (proj1 (proj2 (written_element_is_well_formed Runs.good_day
                         "current_mood.json"
                         (mapToElement
                            {| avgValence := 0.9; avgEnergy := 0.8;
                               avgAcousticness := 0.2;
                               trackCount := 3; analyzedCount := 2 |}
                            (map track_of_item Runs.three_plays)
                            "2024-05-02T00:00:00.000Z")
                         (or_introl eq_refl)))).
Defined.

(** X13: with a token held, as soon as the request of one play succeeds
    and the file can be written, the run writes "current_mood.json" with
    the plays of the history as its track list, reports nothing and exits
    with status 0. *)
Theorem one_analysis_is_enough
    (w : World) (accessToken : option string) (track : SpotifyTrack) :
  invalid_credentials w = false ->
  getAccessToken (token_endpoint w) = inr accessToken ->
  truthy accessToken = true ->
  In track (played (recently_played_endpoint w)) ->
  request_fails (soundstat_endpoint w) (track_id track) = false ->
  writeFile w = inr tt ->
  exists element,
    main w = {| exitStatus := 0; files := [("current_mood.json", element)];
                reported := None |} /\
    tracks element = played (recently_played_endpoint w) /\
    analyzedCount (mood element) =
      List.length (analysed_plays (soundstat_endpoint w)
                     (played (recently_played_endpoint w))).
Proof.
  intros Hcred Htoken Htruthy Hin Hok Hwrite.
  pose proof (analyzeDailyMood_played w accessToken Htoken Htruthy) as Hrun.
  set (plays := played (recently_played_endpoint w)) in *.
  destruct (calculateAggregateMood plays (enriched (soundstat_endpoint w) plays))
    as [summary |] eqn:Hmood.
  - exists (mapToElement summary plays (clock w)).
    destruct (mapToElement_fields summary plays (clock w)) as (-> & -> & _).
    split; [| split; [reflexivity |]].
    + unfold main. rewrite Hcred, Hrun.
      destruct plays; [contradiction |]. simpl. now rewrite Hwrite.
    + rewrite calculateAggregateMood_lookups in Hmood.
      apply summarize_some in Hmood as (_ & _ & ->).
      now rewrite lookups_length_matching, matching_enriched.
  - pose proof (proj1 (aggregate_of_enriched_none (soundstat_endpoint w) plays)
                  Hmood track Hin) as Hfails.
    congruence.
Qed.

Lemma one_analysis_is_enough_witness :
  exists element,
    main Runs.good_day =
    {| exitStatus := 0; files := [("current_mood.json", element)];
       reported := None |} /\
    tracks element = map track_of_item Runs.three_plays /\
    analyzedCount (mood element) = 2.
Proof.
  apply (one_analysis_is_enough Runs.good_day (Some "token")
           (track_of_item (Runs.item "a" "Aubade" "Ana" "2024-05-01T08:00:00.000Z")));
    try reflexivity.
  left. reflexivity.
Defined.

Lemma enriched_agree (fetch fetch' : string -> Fetched SoundStatData)
    (tracks : list SpotifyTrack) :
  (forall k, option_map read_metrics (analysis fetch k) =
             option_map read_metrics (analysis fetch' k)) ->
  agree_on_metrics (enriched fetch tracks) (enriched fetch' tracks).
Proof.
  intros Hsame k. rewrite !enriched_get.
  destruct (mem k (map track_id tracks)); [apply Hsame | reflexivity].
Qed.

(** X14: a run depends on the analysis service only through the valence,
    energy and acousticness of the answers that succeed.  Replacing the
    service by one whose requests succeed for the same identifiers with
    these three metrics equal (other danceability, tempo, status text, keys
    or error bodies) leaves the outcome of [main] unchanged. *)
Theorem main_reads_three_metrics_only
    (w : World) (fetch' : string -> Fetched SoundStatData) :
  (forall k, option_map read_metrics (analysis (soundstat_endpoint w) k) =
             option_map read_metrics (analysis fetch' k)) ->
  main (with_soundstat w fetch') = main w.
Proof.
  intros Hsame.
  assert (Hrun : analyzeDailyMood (with_soundstat w fetch') = analyzeDailyMood w).
  { unfold analyzeDailyMood. simpl.
    destruct (getAccessToken (token_endpoint w)) as [error | accessToken];
      [reflexivity |]. simpl.
    destruct (getRecentlyPlayed accessToken (recently_played_endpoint w))
      as [error | plays]; [reflexivity |]. simpl.
    destruct (List.length plays =? 0)%nat; [reflexivity |].
    rewrite !getSoundStatAudioFeatures_enriched. simpl.
    assert (Hmood : calculateAggregateMood plays (enriched fetch' plays) =
                    calculateAggregateMood plays
                      (enriched (soundstat_endpoint w) plays)).
    { rewrite !calculateAggregateMood_lookups.
      apply summarize_metrics, lookups_agree, enriched_agree.
      intros k. symmetry. apply Hsame. }
    now rewrite Hmood. }
  unfold main. now rewrite Hrun.
Qed.

Lemma main_reads_three_metrics_only_witness :
  main (with_soundstat Runs.good_day Runs.soundstat') = main Runs.good_day.
Proof.
  apply (main_reads_three_metrics_only Runs.good_day Runs.soundstat').
  intros k. unfold analysis. simpl soundstat_endpoint.
  unfold Sample.soundstat, Runs.soundstat'.
  destruct (String.eqb (url_of k) (url_of "a")); [reflexivity |].
  destruct (String.eqb (url_of k) (url_of "b")); reflexivity.
Defined.

(** X15: the label certifies the thresholds it went through.  FIRE or AIR
    is only returned when avgValence > 0.6; WATER or AETHER only when
    avgEnergy < 0.5; AETHER moreover only when avgAcousticness > 0.5 and
    avgValence < 0.6 is false; AIR only when 0.4 <= avgEnergy <= 0.7. *)
Theorem label_certifies_thresholds
    (m : MoodData) (ts : list SpotifyTrack) (now : string) :
  match element_name (mapToElement m ts now) with
  | FIRE => Num.gt (avgEnergy m) 0.7 = true /\ Num.gt (avgValence m) 0.6 = true
  | WATER => Num.lt (avgEnergy m) 0.5 = true /\ Num.lt (avgValence m) 0.6 = true
  | AIR => Num.gt (avgValence m) 0.6 = true /\
           Num.ge (avgEnergy m) 0.4 = true /\ Num.le (avgEnergy m) 0.7 = true
  | AETHER => Num.lt (avgEnergy m) 0.5 = true /\
              Num.gt (avgAcousticness m) 0.5 = true /\
              Num.lt (avgValence m) 0.6 = false
  | EARTH => Rules.fire m = false /\ Rules.water m = false /\
             Rules.air m = false /\ Rules.aether m = false
  end.
Proof.
  unfold mapToElement, Rules.fire, Rules.water, Rules.air, Rules.aether;
    cbv zeta.
  destruct (Num.gt (avgEnergy m) 0.7) eqn:Hhot,
           (Num.gt (avgValence m) 0.6) eqn:Hglad,
           (Num.lt (avgEnergy m) 0.5) eqn:Hcalm,
           (Num.lt (avgValence m) 0.6) eqn:Hsad,
           (Num.ge (avgEnergy m) 0.4) eqn:Hmid,
           (Num.le (avgEnergy m) 0.7) eqn:Hmild,
           (Num.gt (avgAcousticness m) 0.5) eqn:Hwood;
    simpl; unfold Num.ge, Num.le in *; rewrite ?Hmid, ?Hmild; simpl;
    repeat split.
Qed.

Lemma lookups_ids (audioFeatures : JsMap.t AudioFeatures)
    (tracks1 : list SpotifyTrack) :
  forall tracks2,
    map track_id tracks1 = map track_id tracks2 ->
    lookups audioFeatures tracks1 = lookups audioFeatures tracks2.
Proof.
  induction tracks1 as [| t1 tracks1 IH]; intros [| t2 tracks2] Hids;
    simpl in *; try discriminate; [reflexivity |].
  injection Hids as Hid Hids. rewrite Hid. f_equal. now apply IH.
Qed.

(** X16: the aggregator looks at the identifiers of the plays only: two
    play lists with the same sequence of identifiers give the same result
    on the same mapping, whatever the names, artists and timestamps. *)
Theorem aggregate_reads_identifiers_only
    (tracks1 tracks2 : list SpotifyTrack) (audioFeatures : JsMap.t AudioFeatures) :
  map track_id tracks1 = map track_id tracks2 ->
  calculateAggregateMood tracks1 audioFeatures =
  calculateAggregateMood tracks2 audioFeatures.
Proof.
  intros Hids. rewrite !calculateAggregateMood_lookups.
  rewrite (lookups_ids audioFeatures tracks1 tracks2 Hids).
  rewrite <- (length_map track_id tracks1), Hids, length_map. reflexivity.
Qed.

Lemma aggregate_reads_identifiers_only_witness :
  calculateAggregateMood [Sample.morning; Sample.other] Sample.analysed =
  calculateAggregateMood [Sample.evening; Sample.other] Sample.analysed.
Proof.
  apply (aggregate_reads_identifiers_only
           [Sample.morning; Sample.other] [Sample.evening; Sample.other]
           Sample.analysed).
  reflexivity.
Defined.

